(** * Verification of [examples/cover_bot.py]

    A shallow embedding of the coverage-guided test-writing bot and the
    proofs of its specification's claims.

    Python [str] values are modelled as [string]; every [ascii] stands for
    the code point of the same number (0..255).  Python [int] line numbers
    are [Z].  The three collaborators whose code is not part of the example
    (the [text.prompt] template renderer, the completion service and the
    coverage engine) are parameters of the development. *)

From Stdlib Require Import ZArith Ascii String List Lia Sorting.Sorted.
From stdpp Require Import base strings list gmap sorting pretty.
Import ListNotations.

Local Open Scope string_scope.
Local Open Scope list_scope.

(** ** Python string methods used by the bot *)

Module Py.

(** Code points named in the sequel. *)
Definition LF  : ascii := "010"%char.
Definition CR  : ascii := "013"%char.
Definition TAB : ascii := "009"%char.
Definition SPC : ascii := " "%char.

Definition code (c : ascii) : nat := nat_of_ascii c.

(** The line boundaries of [str.splitlines]: \n \v \f \r \x1c \x1d \x1e
    and \x85 (the boundaries above code point 255 are outside the model). *)
Definition is_linebreak (c : ascii) : bool :=
  let n := code c in
  (((10 <=? n) && (n <=? 13)) || ((28 <=? n) && (n <=? 30))
   || (n =? 133))%nat.

(** [str.isspace] on one code point: \t..\r, \x1c..\x1f, space, \x85, \xa0. *)
Definition is_space (c : ascii) : bool :=
  let n := code c in
  (((9 <=? n) && (n <=? 13)) || ((28 <=? n) && (n <=? 32))
   || (n =? 133) || (n =? 160))%nat.

(** [cons_head c ls] puts [c] in front of the first string of [ls]. *)
Definition cons_head (c : ascii) (ls : list string) : list string :=
  match ls with
  | [] => [String c ""]
  | l :: ls' => String c l :: ls'
  end.

(** [s.splitlines()]: no empty last line after a final boundary, and
    "\r\n" is one boundary. *)
Fixpoint splitlines (s : string) : list string :=
  match s with
  | "" => []
  | String c s' =>
    if is_linebreak c then
      match s' with
      | String c' s'' =>
        if Ascii.eqb c CR && Ascii.eqb c' LF
        then "" :: splitlines s''
        else "" :: splitlines s'
      | "" => [""]
      end
    else cons_head c (splitlines s')
  end.

(** [s.startswith(p)]. *)
Fixpoint startswith (s p : string) {struct p} : bool :=
  match p, s with
  | "", _ => true
  | String a p', String b s' => Ascii.eqb a b && startswith s' p'
  | String _ _, "" => false
  end.

(** [s.split(sep)] for a non-empty [sep]: the pieces between the leftmost,
    non-overlapping occurrences of [sep].  [skip] counts the characters of
    an occurrence already matched that are still to be passed over. *)
Fixpoint split_go (sep : string) (skip : nat) (s : string) : list string :=
  match s with
  | "" => [""]
  | String c s' =>
    match skip with
    | S k => split_go sep k s'
    | O =>
      if startswith s sep
      then "" :: split_go sep (String.length sep - 1) s'
      else cons_head c (split_go sep 0 s')
    end
  end.

Definition split (s sep : string) : list string := split_go sep 0 s.

(** [s.count(sub)] for a non-empty [sub]: the number of non-overlapping
    occurrences, found left to right. *)
Fixpoint count_go (sub : string) (skip : nat) (s : string) : nat :=
  match s with
  | "" => 0
  | String c s' =>
    match skip with
    | S k => count_go sub k s'
    | O =>
      if startswith s sub
      then S (count_go sub (String.length sub - 1) s')
      else count_go sub 0 s'
    end
  end.

Definition count (s sub : string) : nat := count_go sub 0 s.

(** [s.lstrip()], [s.rstrip()] and [s.strip()]. *)
Fixpoint lstrip (s : string) : string :=
  match s with
  | "" => ""
  | String c s' => if is_space c then lstrip s' else s
  end.

Fixpoint rstrip (s : string) : string :=
  match s with
  | "" => ""
  | String c s' =>
    match rstrip s' with
    | "" => if is_space c then "" else String c ""
    | r => String c r
    end
  end.

Definition strip (s : string) : string := lstrip (rstrip s).

(** [sep.join(l)]. *)
Fixpoint join (sep : string) (l : list string) : string :=
  match l with
  | [] => ""
  | [x] => x
  | x :: l' => x +:+ sep +:+ join sep l'
  end.

(** Subscripts [l[0]] and [l[1]].  The bot only subscripts lists that are
    long enough (lemmas [split_nonempty] and [split_def_two] below), so the
    [IndexError] of Python is unreachable and the default is never used. *)
Definition item (l : list string) (i : nat) : string := nth i l "".

(** [str(n)] on an [int]. *)
Definition str (n : Z) : string := pretty n.

(** [sorted(xs)] on integers. *)
Definition sorted (xs : list Z) : list Z := merge_sort Z.le xs.

End Py.

(** ** [textwrap.dedent] *)

Module Textwrap.
Import Py.

Definition is_blank (c : ascii) : bool := Ascii.eqb c SPC || Ascii.eqb c TAB.

(** A line made of spaces and tabs only (the pattern that [dedent] blanks
    out before it measures indentation). *)
Fixpoint all_blank (s : string) : bool :=
  match s with
  | "" => true
  | String c s' => is_blank c && all_blank s'
  end.

Definition whitespace_only (line : string) : bool :=
  match line with "" => false | _ => all_blank line end.

(** The leading-whitespace pattern on one line: the leading spaces and
    tabs of a line that has another character after them. *)
Fixpoint leading_whitespace (line : string) : option string :=
  match line with
  | "" => None
  | String c s' =>
    if is_blank c
    then option_map (String c) (leading_whitespace s')
    else Some ""
  end.

(** [margin[:i]] for the first [i] at which [margin] and [indent] differ. *)
Fixpoint common_prefix (margin indent : string) : string :=
  match margin, indent with
  | String a m', String b i' =>
    if Ascii.eqb a b then String a (common_prefix m' i') else ""
  | _, _ => ""
  end.

(** One turn of the loop over [indents]. *)
Definition margin_step (margin : option string) (indent : string)
  : option string :=
  match margin with
  | None => Some indent
  | Some m =>
    if startswith indent m then Some m
    else if startswith m indent then Some indent
    else Some (common_prefix m indent)
  end.

(** Removal of [margin] at the start of one line. *)
Fixpoint remove_prefix (margin line : string) : string :=
  match margin with
  | "" => line
  | String _ m' =>
    match line with
    | String _ l' => remove_prefix m' l'
    | "" => ""
    end
  end.

Definition strip_margin (margin line : string) : string :=
  if startswith line margin then remove_prefix margin line else line.

(** [dedent(text)]; the multi-line anchors of its regular expressions cut
    the text at "\n" only. *)
Definition dedent (text : string) : string :=
  let lines := split text (String LF "") in
  let lines := map (fun l => if whitespace_only l then "" else l) lines in
  let indents := omap leading_whitespace lines in
  let margin := fold_left margin_step indents None in
  match margin with
  | Some (String c m) =>
    join (String LF "") (map (strip_margin (String c m)) lines)
  | _ => join (String LF "") lines
  end.

End Textwrap.

(** ** The bot *)

Module CoverBot.
Import Py Textwrap.

Definition nl : string := String LF "".
Definition dquote : string := String (ascii_of_nat 34) "".

(** *** Exceptions and effects *)

(** The exceptions that travel through the bot: the bare [SyntaxError()]
    that [get_missing_lines_for_completion] raises itself, and whatever the
    import of the composed module raises, with its class name and whether
    that class is [SyntaxError] or one of its subclasses. *)
Inductive exception : Type :=
| NoTestFunctions
| ImportFailure (cls : string) (is_syntax_error : bool).

(** [isinstance(e, SyntaxError)], the test of [except SyntaxError]. *)
Definition isinstance_SyntaxError (e : exception) : bool :=
  match e with
  | NoTestFunctions => true
  | ImportFailure _ b => b
  end.

(** What importing (or reloading) [test_mod] under coverage ends in: the
    set [analysis.missing] of statement lines that did not run, or an
    exception out of the module's top level. *)
Inductive import_outcome : Type :=
| Imported (missing : gset Z)
| ImportRaises (cls : string) (is_syntax_error : bool).

(** The part of the process state the bot acts on. *)
Record World : Type := mkWorld {
  test_mod_py : option string;   (* contents of the file test_mod.py *)
  test_mod_loaded : bool;        (* "test_mod" is in sys.modules *)
  cov_runs : nat;                (* coverage measurements started so far *)
  completions : nat;             (* completer calls made so far *)
  stdout : list string           (* the arguments of the print calls *)
}.

Definition initial_world : World :=
  mkWorld None false 0 0 [].

Inductive result (A : Type) : Type :=
| Ok (a : A)
| Raise (e : exception).
Arguments Ok {A} a.
Arguments Raise {A} e.

(** Computations that read and change the world and may raise. *)
Definition M (A : Type) : Type := World -> result A * World.

Definition ret {A} (a : A) : M A := fun w => (Ok a, w).
Definition raise {A} (e : exception) : M A := fun w => (Raise e, w).
Definition bind {A B} (m : M A) (k : A -> M B) : M B :=
  fun w =>
    match m w with
    | (Ok a, w') => k a w'
    | (Raise e, w') => (Raise e, w')
    end.

Notation "x <- m ;; k" := (bind m (fun x => k))
  (at level 100, m at next level, right associativity).

Definition print (text : string) : M unit :=
  fun w => (Ok tt, mkWorld (test_mod_py w) (test_mod_loaded w) (cov_runs w)
                           (completions w) (stdout w ++ [text])).

(** Values handed to a prompt template. *)
Inductive value : Type :=
| VStr (s : string)
| VList (l : list string).

(** The docstring of [construct_prompt]; a backslash at the end of a source
    line joins it with the next one. *)
Definition construct_prompt_doc : string :=
  "The Python module code is as follows:" +:+ nl +:+ nl +:+
  "    {{ target_code }}" +:+ nl +:+ nl +:+
  "    Print only the code for a completed version of the following Python function named " +:+
  "    `test_some_function` that attains full coverage over the Python module code above:" +:+ nl +:+ nl +:+
  "    def test_some_function():" +:+ nl +:+
  "    ".

(** The docstring of [construct_prompt_test_code]. *)
Definition construct_prompt_test_code_doc : string :=
  "The Python module code is as follows:" +:+ nl +:+ nl +:+
  "    {{ target_code }}" +:+ nl +:+ nl +:+
  "    Print only the code for a completed version of the following Python function named " +:+
  "    `test_some_function` that attains coverage for lines {{ lines | join(" +:+ dquote +:+ " and " +:+ dquote +:+
  ") }} in the Python " +:+
  "    module code above:" +:+ nl +:+ nl +:+
  "    {{ test_code }}" +:+ nl +:+
  "    ".

(** *** [collect_test_functions] *)

Definition collect_test_functions (text : string) : list string :=
  let lines := splitlines text in
  fold_left
    (fun test_function_names line =>
       if startswith line "def test" then
         let test_function_name :=
           strip (item (split (item (split line "def") 1) "(") 0) in
         test_function_names ++ [test_function_name]
       else test_function_names)
    lines [].

(** *** Composition of the module that is measured *)

Definition create_call (name : string) : string :=
  dedent (nl +:+
          "    try:" +:+ nl +:+
          "        " +:+ name +:+ "()" +:+ nl +:+
          "    except AssertionError:" +:+ nl +:+
          "        pass").

(** The value of [run_statements]. *)
Definition run_statements_of (test_function_names : list string) : string :=
  join nl (map create_call test_function_names).

(** The value of [c1]. *)
Definition composed_artifact (target_code response run_statements : string)
  : string :=
  nl +:+ target_code +:+ nl +:+
  nl +:+ response +:+ nl +:+
  nl +:+ run_statements +:+ nl +:+
  "    ".

(** The test [ln < target_code.count("\n")]. *)
Definition below_target_count (target_code : string) (ln : Z) : bool :=
  (ln <? Z.of_nat (count target_code nl))%Z.

Section Bot.

(** The collaborators.  [render template values] is what the [text.prompt]
    decorator makes of a docstring and the arguments of a call;
    [completer n prompt] is the answer of the completion service to its
    call number [n]; [import_under_coverage n reload code] is the outcome of
    measurement number [n] on the module text [code], by [importlib.reload]
    when [reload] is true and by [importlib.import_module] otherwise. *)
Variable render : string -> list (string * value) -> string.
Variable completer : nat -> string -> string.
Variable import_under_coverage : nat -> bool -> string -> import_outcome.

Definition construct_prompt (target_code : string) : string :=
  render construct_prompt_doc [("target_code", VStr target_code)].

Definition construct_prompt_test_code
    (target_code test_code : string) (lines : list string) : string :=
  render construct_prompt_test_code_doc
    [("target_code", VStr target_code); ("test_code", VStr test_code);
     ("lines", VList lines)].

(** The callable bound to [completer] at module level. *)
Definition complete (prompt : string) : M string :=
  fun w =>
    (Ok (completer (completions w) prompt),
     mkWorld (test_mod_py w) (test_mod_loaded w) (cov_runs w)
             (S (completions w)) (stdout w)).

Definition get_missing_coverage_lines (code : string) : M (list Z) :=
  fun w =>
    let reload := test_mod_loaded w in
    match import_under_coverage (cov_runs w) reload code with
    | Imported missing =>
      (Ok (sorted (elements missing)),
       mkWorld (Some code) true (S (cov_runs w)) (completions w) (stdout w))
    | ImportRaises cls b =>
      (Raise (ImportFailure cls b),
       mkWorld (Some code) reload (S (cov_runs w)) (completions w) (stdout w))
    end.

Definition query (completer : string -> M string)
    (target_code test_code : string) (lines : list string)
  : M (string * string) :=
  let prompt :=
    if String.eqb test_code "" then construct_prompt target_code
    else construct_prompt_test_code target_code test_code lines in
  response <- completer prompt ;;
  ret (prompt, response).

Definition get_missing_lines_for_completion (target_code response : string)
  : M (list string) :=
  let test_function_names := collect_test_functions response in
  match test_function_names with
  | [] => raise NoTestFunctions
  | _ :: _ =>
    let run_statements := run_statements_of test_function_names in
    let c1 := composed_artifact target_code response run_statements in
    lines <- get_missing_coverage_lines c1 ;;
    ret (map str (filter (fun ln => below_target_count target_code ln) lines))
  end.

(** *** The testing loop *)

(** One entry of [target_dialog]. *)
Definition dialog_entry : Type := (string * string * string)%type.

(** What one attempt did, kept beside the program's own variables so that
    properties of single attempts can be stated: its index, prompt and
    response, and how the call of [get_missing_lines_for_completion]
    ended. *)
Record Attempt : Type := mkAttempt {
  attempt_index : nat;
  attempt_prompt : string;
  attempt_response : string;
  attempt_lines : result (list string)
}.

(** The variables of the loop over one target function; [attempt_log] is
    the only one the program does not have. *)
Record Vars : Type := mkVars {
  test_code : string;
  lines : list string;
  target_dialog : list dialog_entry;
  attempt_log : list Attempt
}.

Definition initial_vars : Vars := mkVars "" [] [] [].

(** How one turn of the [for] loop is left. *)
Inductive control : Type :=
| Next                      (* falls through to the next index *)
| Break                     (* the [break] statement *)
| Propagate (e : exception) (* an exception leaves the loop *).

(** The body of [for i in range(n_coverage_attempts)]. *)
Definition attempt (target_code : string) (i : nat) (v : Vars)
  : World -> control * Vars * World :=
  fun w =>
    match query complete target_code (test_code v) (lines v) w with
    | (Raise e, w1) => (Propagate e, v, w1)
    | (Ok (prompt, response), w1) =>
      match (_ <- print (nl +:+ "ATTEMPT: " +:+ str (Z.of_nat i) +:+ nl) ;;
             _ <- print ("PROMPT:" +:+ nl +:+ strip prompt +:+ nl) ;;
             print ("RESPONSE:" +:+ nl +:+ strip response +:+ nl)) w1 with
      | (Raise e, w2) => (Propagate e, v, w2)
      | (Ok _, w2) =>
        let dialog := target_dialog v ++ [(target_code, prompt, response)] in
        let '(r, w3) := get_missing_lines_for_completion target_code response w2 in
        let log := attempt_log v ++ [mkAttempt i prompt response r] in
        match r with
        | Ok lines' =>
          if Nat.eqb (length lines') 0
          then (Break, mkVars response lines' dialog log, w3)
          else (Next, mkVars response lines' dialog log, w3)
        | Raise e =>
          if isinstance_SyntaxError e
          then (Next, mkVars "" (lines v) dialog log, w3)
          else (Propagate e, mkVars response (lines v) dialog log, w3)
        end
      end
    end.

(** How the loop over one target function ends: by [break], by running out
    of indices, or by an exception that nothing in the program catches. *)
Inductive status : Type :=
| covered
| budget_exhausted
| aborted (e : exception).

(** [for i in indices: attempt]. *)
Fixpoint for_range (target_code : string) (indices : list nat) (v : Vars)
    (w : World) : status * Vars * World :=
  match indices with
  | [] => (budget_exhausted, v, w)
  | i :: rest =>
    match attempt target_code i v w with
    | (Next, v', w') => for_range target_code rest v' w'
    | (Break, v', w') => (covered, v', w')
    | (Propagate e, v', w') => (aborted e, v', w')
    end
  end.

(** The loop for one target function with [n_coverage_attempts] attempts. *)
Definition session (target_code : string) (n_coverage_attempts : nat)
    (w : World) : status * Vars * World :=
  for_range target_code (seq 0 n_coverage_attempts) initial_vars w.

(** The parts of what a session returns. *)
Definition status_of (r : status * Vars * World) : status := fst (fst r).
Definition vars_of (r : status * Vars * World) : Vars := snd (fst r).
Definition world_of (r : status * Vars * World) : World := snd r.

(** [for target_function in target_code_examples], on the source texts of
    the functions; an exception ends the program before [dialogs.append]. *)
Fixpoint main_loop (target_codes : list string) (n_coverage_attempts : nat)
    (dialogs : list (string * list dialog_entry)) (w : World)
  : option exception * list (string * list dialog_entry) * World :=
  match target_codes with
  | [] => (None, dialogs, w)
  | target_code :: rest =>
    match session target_code n_coverage_attempts w with
    | (aborted e, _, w') => (Some e, dialogs, w')
    | (_, v, w') =>
      main_loop rest n_coverage_attempts
        (dialogs ++ [(target_code, target_dialog v)]) w'
    end
  end.

(** *** Notions about attempts used in the statements *)

(** The prompt that [query] builds from the loop variables. *)
Definition current_prompt (target_code : string) (v : Vars) : string :=
  if String.eqb (test_code v) "" then construct_prompt target_code
  else construct_prompt_test_code target_code (test_code v) (lines v).

(** The prompt of the attempt that comes after [a], if there is one. *)
Definition next_prompt (target_code : string) (a : Attempt) : string :=
  match attempt_lines a with
  | Ok ls =>
    if String.eqb (attempt_response a) "" then construct_prompt target_code
    else construct_prompt_test_code target_code (attempt_response a) ls
  | Raise _ => construct_prompt target_code
  end.

(** How the loop goes on after an attempt. *)
Definition control_of (a : Attempt) : control :=
  match attempt_lines a with
  | Ok [] => Break
  | Ok (_ :: _) => Next
  | Raise e => if isinstance_SyntaxError e then Next else Propagate e
  end.

(** The attempt is followed by another one when the budget allows. *)
Definition continuing (a : Attempt) : Prop := control_of a = Next.

(** The loop variables after an attempt. *)
Definition vars_after (target_code : string) (v : Vars) (a : Attempt) : Vars :=
  let dialog :=
    target_dialog v ++ [(target_code, attempt_prompt a, attempt_response a)] in
  let log := attempt_log v ++ [a] in
  match attempt_lines a with
  | Ok ls => mkVars (attempt_response a) ls dialog log
  | Raise e =>
    mkVars (if isinstance_SyntaxError e then "" else attempt_response a)
           (lines v) dialog log
  end.

(** The recorded outcome of [a] is that of a call of
    [get_missing_lines_for_completion] on its response, and the response is
    an answer of the completer to its prompt. *)
Definition attempt_measured (target_code : string) (a : Attempt) : Prop :=
  (exists n, attempt_response a = completer n (attempt_prompt a)) /\
  (exists w, attempt_lines a
             = fst (get_missing_lines_for_completion
                      target_code (attempt_response a) w)).

(** The entry of [target_dialog] that an attempt appends. *)
Definition dialog_of (target_code : string) (a : Attempt) : dialog_entry :=
  (target_code, attempt_prompt a, attempt_response a).

(** How the attempts [new] of a loop with [n] indices fit its status. *)
Definition ends_with (st : status) (new : list Attempt) (n : nat) : Prop :=
  match st with
  | covered => exists a, last new = Some a /\ attempt_lines a = Ok []
  | budget_exhausted =>
    length new = n /\ forall a, last new = Some a -> continuing a
  | aborted e =>
    exists a, last new = Some a /\ attempt_lines a = Raise e
              /\ isinstance_SyntaxError e = false
  end.

End Bot.

(** *** The specification's reading of the response parser

    The spec trims leading whitespace before it looks for the declaration
    and takes the text between the keyword and the first opening
    parenthesis. *)

(** The text before the first [c] (all of it when there is none). *)
Fixpoint before_char (c : ascii) (s : string) : string :=
  match s with
  | "" => ""
  | String a s' => if Ascii.eqb a c then "" else String a (before_char c s')
  end.

(** The first three characters removed: the text after the keyword. *)
Definition after_keyword (line : string) : string :=
  match line with
  | String _ (String _ (String _ s)) => s
  | _ => ""
  end.

Definition declared_name (line : string) : string :=
  strip (before_char "("%char (after_keyword line)).

Definition spec_collect_test_functions (text : string) : list string :=
  map (fun line => declared_name (lstrip line))
      (filter (fun line => Is_true (startswith (lstrip line) "def test"))
              (splitlines text)).

(** A string contains [sub]. *)
Fixpoint contains (s sub : string) : bool :=
  startswith s sub ||
  match s with
  | "" => false
  | String _ s' => contains s' sub
  end.

(** *** Notions used in the statements *)

(** The name the loop body of [collect_test_functions] computes. *)
Definition parsed_name (line : string) : string :=
  strip (item (split (item (split line "def") 1) "(") 0).

(** The test of the loop body of [collect_test_functions]. *)
Definition qualifies (line : string) : Prop :=
  Is_true (startswith line "def test").

(** Every character of [s] passes [p]. *)
Fixpoint forall_chars (p : ascii -> bool) (s : string) : bool :=
  match s with
  | "" => true
  | String c s' => p c && forall_chars p s'
  end.

Definition not_LF (c : ascii) : bool := negb (Ascii.eqb c LF).
Definition not_linebreak (c : ascii) : bool := negb (is_linebreak c).

(** [name] put in front of the first string of [ls]. *)
Definition prepend (name : string) (ls : list string) : list string :=
  match ls with
  | [] => [name]
  | x :: xs => (name +:+ x) :: xs
  end.

(** The guarded invocation of one test function, as text. *)
Definition guarded_invocation (name : string) : string :=
  nl +:+
  "try:" +:+ nl +:+
  "    " +:+ name +:+ "()" +:+ nl +:+
  "except AssertionError:" +:+ nl +:+
  "    pass".

(** The number of "\n" among the first [k] characters of [s]. *)
Fixpoint lf_before (s : string) (k : nat) : nat :=
  match k, s with
  | S k', String c s' =>
    (if Ascii.eqb c LF then 1 else 0) + lf_before s' k'
  | _, _ => 0
  end.

(** The number of physical line ends of Python source among the first [k]
    characters of [s]: "\n", "\r\n" (counted at its "\n") and a "\r" that no
    "\n" follows. *)
Fixpoint line_ends_before (s : string) (k : nat) : nat :=
  match k, s with
  | S k', String c s' =>
    (if Ascii.eqb c LF then 1
     else if Ascii.eqb c CR && negb (startswith s' nl) then 1
     else 0) + line_ends_before s' k'
  | _, _ => 0
  end.

(** The line number, counted from 1, of the character at offset [k]. *)
Definition line_number_at (s : string) (k : nat) : Z :=
  Z.of_nat (S (line_ends_before s k)).

End CoverBot.

(** ** The functions to be tested *)

Module Targets.

(** [range(n)]. *)
Definition range (n : Z) : list Z := map Z.of_nat (seq 0 (Z.to_nat n)).

(** [some_function], on integers. *)
Definition some_function (x y : Z) : bool :=
  let z := if (x <? 0)%Z then (y - x)%Z else (y + x)%Z in
  if (z >? y)%Z then true else false.

(** [some_other_function]. *)
Definition some_other_function (x y : Z) : bool :=
  let z :=
    fold_left
      (fun (z i : Z) => if (x <? 3)%Z then (y - x)%Z else (y + x)%Z)
      (range x) 0%Z in
  if (z >? y)%Z then true else false.

End Targets.

(** ** Notions used to account for the effects of a session *)

Module Accounting.
Import CoverBot.

(** The response of the attempt has a test function, so that its composed
    module was measured. *)
Definition tested (a : Attempt) : Prop :=
  collect_test_functions (attempt_response a) <> [].

End Accounting.

(** ** Concrete collaborators and runs *)

Module Scenario.
Import Py CoverBot.

(** [s.replace(old, new)]. *)
Definition replace (s old new : string) : string := join new (split s old).

(** Modelled from the spec: the renderer behind [text.prompt], whose code is
    not part of the example.  The spec calls it template rendering only:
    every placeholder of the docstring is replaced by the value of its
    argument, a list being joined with " and ". *)
Definition render_placeholders (template : string)
    (values : list (string * value)) : string :=
  fold_left
    (fun text '(name, val) =>
       match val with
       | VStr s => replace text ("{{ " +:+ name +:+ " }}") s
       | VList l =>
         replace text
           ("{{ " +:+ name +:+ " | join(" +:+ dquote +:+ " and " +:+ dquote
            +:+ ") }}")
           (join " and " l)
       end)
    values template.

(** [inspect.getsource(some_function)]. *)
Definition some_function_source : string :=
  "def some_function(x, y):" +:+ nl +:+
  "    if x < 0:" +:+ nl +:+
  "        z = y - x" +:+ nl +:+
  "    else:" +:+ nl +:+
  "        z = y + x" +:+ nl +:+
  nl +:+
  "    if z > y:" +:+ nl +:+
  "        return True" +:+ nl +:+
  nl +:+
  "    return False" +:+ nl.

(** A response that exercises both branches. *)
Definition full_response : string :=
  "def test_some_function():" +:+ nl +:+
  "    assert some_function(-1, 1)" +:+ nl +:+
  "    assert not some_function(0, 1)".

(** A response that only exercises the branch [x < 0], and whose last
    statement cannot be reached. *)
Definition partial_response : string :=
  "def test_some_function():" +:+ nl +:+
  "    assert some_function(-1, 1)" +:+ nl +:+
  "    return" +:+ nl +:+
  "    assert some_function(-2, 1)".

(** A response whose test calls a function that does not exist: the call
    raises [NameError], which the guarded invocation does not catch. *)
Definition broken_response : string :=
  "def test_some_function():" +:+ nl +:+
  "    assert some_function(-1, 1)" +:+ nl +:+
  "    check_all_branches()".

(** A response without any test function. *)
Definition prose_response : string :=
  "Sure! Here is a test for your function.".

(** A response whose only declaration is indented. *)
Definition indented_response : string :=
  "class TestSomeFunction:" +:+ nl +:+
  "    def test_some_function(self):" +:+ nl +:+
  "        assert some_function(-1, 1)".

Definition always (response : string) : nat -> string -> string :=
  fun _ _ => response.

(** The prose first, a test afterwards. *)
Definition prose_then_full : nat -> string -> string :=
  fun n _ => match n with 0 => prose_response | _ => full_response end.

(** Every statement of the target ran; nothing is missing. *)
Definition all_lines_run : nat -> bool -> string -> import_outcome :=
  fun _ _ _ => Imported ∅.

(** The statement [z = y + x], on line 6 of the module composed with
    [partial_response], did not run, nor did line 17, the last statement of
    the test. *)
Definition else_branch_missed : nat -> bool -> string -> import_outcome :=
  fun _ _ _ => Imported {[ 17%Z; 6%Z ]}.

(** What the measurement of the module composed with [partial_response]
    would find: besides lines 6 and 17, the statement [return False] on
    line 11 did not run. *)
Definition branch_and_return_missed
  : nat -> bool -> string -> import_outcome :=
  fun _ _ _ => Imported {[ 6%Z; 11%Z; 17%Z ]}.

(** The module raises [NameError] at its top level. *)
Definition raises_NameError : nat -> bool -> string -> import_outcome :=
  fun _ _ _ => ImportRaises "NameError" false.

(** The module does not compile. *)
Definition raises_SyntaxError : nat -> bool -> string -> import_outcome :=
  fun _ _ _ => ImportRaises "SyntaxError" true.

Definition run (completer : nat -> string -> string)
    (engine : nat -> bool -> string -> import_outcome) (budget : nat)
  : status * Vars * World :=
  session render_placeholders completer engine some_function_source budget
          initial_world.

End Scenario.

(** * Properties *)

(** ** Strings *)

Module PyFacts.
Import Py CoverBot.

#[local] Arguments Ascii.eqb : simpl never.
#[local] Arguments String.append !_ _ / : simpl nomatch.

(** Case analysis on the condition of the first conditional of the goal. *)
Ltac case_if :=
  match goal with
  | |- context [if ?b then _ else _] => destruct b eqn:?
  end.

Lemma append_nil_r s : s +:+ "" = s.
Proof. induction s as [|c s IH]; simpl; [reflexivity|rewrite IH; reflexivity]. Qed.

Lemma append_assoc s t u : (s +:+ t) +:+ u = s +:+ t +:+ u.
Proof. induction s as [|c s IH]; simpl; [reflexivity|rewrite IH; reflexivity]. Qed.

Lemma length_append s t :
  String.length (s +:+ t) = String.length s + String.length t.
Proof. induction s as [|c s IH]; simpl; [reflexivity|rewrite IH; reflexivity]. Qed.

Lemma item_cons_head c ls : item (cons_head c ls) 0 = String c (item ls 0).
Proof. destruct ls; reflexivity. Qed.

Lemma startswith_nil s : startswith s "" = true.
Proof. destruct s; reflexivity. Qed.

(** [split] never returns the empty list, so a subscript [0] is safe. *)
Lemma split_go_nonempty sep skip s : split_go sep skip s <> [].
Proof.
  revert skip; induction s as [|c s IH]; intros skip; simpl; [easy|].
  destruct skip; [|apply IH].
  case_if; [easy|].
  specialize (IH 0). destruct (split_go sep 0 s); [contradiction|easy].
Qed.

Lemma split_nonempty s sep : 0 < length (split s sep).
Proof.
  unfold split. pose proof (split_go_nonempty sep 0 s) as H.
  destruct (split_go sep 0 s); [contradiction|simpl; lia].
Qed.

(** A text without an occurrence of the separator is returned whole. *)
Lemma split_go_absent sep s :
  contains s sep = false -> split_go sep 0 s = [s].
Proof.
  induction s as [|c s IH]; simpl; intros H; [reflexivity|].
  apply orb_false_iff in H as [H1 H2].
  rewrite H1, (IH H2). reflexivity.
Qed.

(** A line that starts with [def] splits into an empty first piece and at
    least one more: the subscript [1] is safe. *)
Lemma split_def_shape line :
  startswith line "def" = true ->
  split line "def" = "" :: split (after_keyword line) "def".
Proof.
  destruct line as [|a [|b [|c rest]]]; simpl; try discriminate;
    try (rewrite !andb_false_r; discriminate).
  intros H. unfold split. simpl. rewrite H. reflexivity.
Qed.

Lemma startswith_def_test line :
  startswith line "def test" = true -> startswith line "def" = true.
Proof.
  destruct line as [|a [|b [|c rest]]]; simpl; try discriminate;
    try (rewrite !andb_false_r; discriminate).
  intros H. repeat (apply andb_prop in H as [? H]).
  repeat (apply andb_true_intro; split); auto using startswith_nil.
Qed.

Lemma split_def_two line :
  startswith line "def test" = true -> 1 < length (split line "def").
Proof.
  intros H. rewrite (split_def_shape _ (startswith_def_test _ H)).
  simpl. pose proof (split_nonempty (after_keyword line) "def"). lia.
Qed.

(** The first piece of a split at the opening parenthesis. *)
Lemma split_paren_first s :
  item (split s "(") 0 = before_char "("%char s.
Proof.
  unfold split. induction s as [|a s IH]; [reflexivity|].
  simpl. rewrite ?startswith_nil, ?andb_true_r.
  rewrite (Ascii.eqb_sym a). destruct (Ascii.eqb "("%char a); [reflexivity|].
  rewrite item_cons_head, IH. reflexivity.
Qed.

(** *** Which characters the pieces are made of *)

Section Chars.
Variable p : ascii -> bool.

Abbreviation only_p := (fun x : string => forall_chars p x = true).

Lemma forall_chars_cons_head c ls :
  p c = true -> Forall only_p ls -> Forall only_p (cons_head c ls).
Proof.
  intros Hc Hls. destruct Hls as [|x xs Hx Hxs]; simpl.
  - constructor; [simpl; rewrite Hc; reflexivity|constructor].
  - constructor; [simpl; rewrite Hc, Hx; reflexivity|assumption].
Qed.

Lemma forall_chars_split_go sep skip s :
  forall_chars p s = true -> Forall only_p (split_go sep skip s).
Proof.
  revert skip; induction s as [|c s IH]; intros skip H; simpl.
  - repeat constructor.
  - simpl in H. apply andb_prop in H as [Hc Hs].
    destruct skip; [|apply IH; assumption].
    case_if.
    + constructor; [reflexivity|apply IH; assumption].
    + apply forall_chars_cons_head; [assumption|apply IH; assumption].
Qed.

Lemma forall_chars_item ls i :
  Forall only_p ls -> forall_chars p (item ls i) = true.
Proof.
  intros H. unfold item. revert i.
  induction H as [|x xs Hx Hxs IH]; intros [|i]; simpl; auto.
Qed.

Lemma forall_chars_lstrip s :
  forall_chars p s = true -> forall_chars p (lstrip s) = true.
Proof.
  induction s as [|c s IH]; simpl; [auto|]. intros H.
  case_if; [|exact H]. apply andb_prop in H as [_ H]. auto.
Qed.

Lemma forall_chars_rstrip s :
  forall_chars p s = true -> forall_chars p (rstrip s) = true.
Proof.
  induction s as [|c s IH]; simpl; [auto|]. intros H.
  apply andb_prop in H as [Hc Hs]. specialize (IH Hs).
  destruct (rstrip s) as [|d r].
  - case_if; simpl; [reflexivity|rewrite Hc; reflexivity].
  - simpl in *. rewrite Hc, IH. reflexivity.
Qed.

Lemma forall_chars_strip s :
  forall_chars p s = true -> forall_chars p (strip s) = true.
Proof. intros H. apply forall_chars_lstrip, forall_chars_rstrip, H. Qed.

Lemma forall_chars_app s t :
  forall_chars p (s +:+ t) = forall_chars p s && forall_chars p t.
Proof.
  induction s as [|c s IH]; simpl; [reflexivity|].
  rewrite IH, andb_assoc. reflexivity.
Qed.

End Chars.

Lemma forall_chars_impl (p q : ascii -> bool) s :
  (forall c, p c = true -> q c = true) ->
  forall_chars p s = true -> forall_chars q s = true.
Proof.
  intros Hpq. induction s as [|c s IH]; simpl; [auto|]. intros H.
  apply andb_prop in H as [Hc Hs]. rewrite (Hpq _ Hc), (IH Hs). reflexivity.
Qed.

(** The lines of [splitlines] hold no line boundary. *)
Lemma splitlines_bounded n s :
  String.length s <= n ->
  Forall (fun l => forall_chars not_linebreak l = true) (splitlines s).
Proof.
  revert s; induction n as [|n IH]; intros [|c s] Hlen; simpl in *;
    try (constructor; fail); try lia.
  destruct (is_linebreak c) eqn:Hc.
  - destruct s as [|c' s'']; [repeat constructor|].
    case_if; (constructor; [reflexivity|apply IH; simpl in *; lia]).
  - apply forall_chars_cons_head; [unfold not_linebreak; rewrite Hc; reflexivity|].
    apply IH; lia.
Qed.

Lemma splitlines_no_linebreak s :
  Forall (fun l => forall_chars not_linebreak l = true) (splitlines s).
Proof. apply (splitlines_bounded (String.length s)); lia. Qed.

Lemma not_linebreak_not_LF c : not_linebreak c = true -> not_LF c = true.
Proof.
  unfold not_linebreak, not_LF. destruct (Ascii.eqb_spec c LF) as [->|]; auto.
Qed.

End PyFacts.

(** ** The response parser *)

Module ParserFacts.
Import Py CoverBot PyFacts.

#[local] Arguments Ascii.eqb : simpl never.
#[local] Arguments startswith : simpl never.
#[local] Arguments String.append !_ _ / : simpl nomatch.

(** The accumulating loop is a filter followed by a map. *)
Lemma collect_test_functions_unfold text :
  collect_test_functions text
  = map parsed_name (filter qualifies (splitlines text)).
Proof.
  unfold collect_test_functions.
  generalize (splitlines text) as ls.
  enough (H : forall ls acc,
    fold_left
      (fun names line =>
         if startswith line "def test"
         then names ++ [parsed_name line] else names) ls acc
    = acc ++ map parsed_name (filter qualifies ls))
    by (intros ls; apply (H ls [])).
  induction ls as [|l ls IH]; intros acc; simpl.
  - rewrite app_nil_r. reflexivity.
  - rewrite IH, filter_cons.
    destruct (decide (qualifies l)) as [Hq|Hq]; unfold qualifies in Hq.
    + apply Is_true_true in Hq. rewrite Hq. simpl.
      rewrite <- app_assoc. reflexivity.
    + apply Is_true_false in Hq. rewrite Hq. reflexivity.
Qed.

(** Without a second [def] on the line, the parsed name is the text between
    the keyword and the first opening parenthesis, stripped. *)
Lemma parsed_name_declared line :
  startswith line "def test" = true ->
  contains (after_keyword line) "def" = false ->
  parsed_name line = declared_name line.
Proof.
  intros Hq Hno. unfold parsed_name, declared_name.
  rewrite (split_def_shape _ (startswith_def_test _ Hq)).
  unfold split at 2. rewrite (split_go_absent _ _ Hno).
  simpl item at 2. rewrite split_paren_first. reflexivity.
Qed.

(** Parsed names hold no line boundary, hence no "\n". *)
Lemma parsed_name_no_linebreak line :
  forall_chars not_linebreak line = true ->
  forall_chars not_linebreak (parsed_name line) = true.
Proof.
  intros H. unfold parsed_name, split.
  apply forall_chars_strip, forall_chars_item, forall_chars_split_go,
    forall_chars_item, forall_chars_split_go, H.
Qed.

Lemma collect_test_functions_no_LF text :
  Forall (fun name => forall_chars not_LF name = true)
         (collect_test_functions text).
Proof.
  rewrite collect_test_functions_unfold.
  apply List.Forall_map, Forall_forall. intros line Hin.
  apply (forall_chars_impl not_linebreak); [apply not_linebreak_not_LF|].
  apply parsed_name_no_linebreak.
  apply list_elem_of_filter in Hin as [_ Hin].
  pose proof (splitlines_no_linebreak text) as Hall.
  rewrite Forall_forall in Hall. apply Hall, Hin.
Qed.

End ParserFacts.

(** ** The composed module *)

Module ComposeFacts.
Import Py Textwrap CoverBot PyFacts.

#[local] Arguments Ascii.eqb : simpl never.
#[local] Arguments String.append !_ _ / : simpl nomatch.

Lemma cons_head_prepend c name ls :
  cons_head c (prepend name ls) = prepend (String c name) ls.
Proof. destruct ls; reflexivity. Qed.

(** Splitting at "\n" passes over a prefix that has none. *)
Lemma split_nl_prefix name rest :
  forall_chars not_LF name = true ->
  split (name +:+ rest) nl = prepend name (split rest nl).
Proof.
  unfold split. induction name as [|c name IH]; simpl; intros H.
  - pose proof (split_go_nonempty nl 0 rest) as Hne.
    destruct (split_go nl 0 rest); [contradiction|reflexivity].
  - apply andb_prop in H as [Hc Hn]. unfold not_LF in Hc.
    rewrite ?startswith_nil, ?andb_true_r, Ascii.eqb_sym.
    destruct (Ascii.eqb c LF); [discriminate|].
    rewrite (IH Hn). apply cons_head_prepend.
Qed.

Lemma split_nl_cons rest : split (nl +:+ rest) nl = "" :: split rest nl.
Proof. reflexivity. Qed.

Lemma split_nl_last name :
  forall_chars not_LF name = true -> split name nl = [name].
Proof.
  intros H. rewrite <- (append_nil_r name) at 1.
  rewrite (split_nl_prefix name "" H). simpl.
  rewrite append_nil_r. reflexivity.
Qed.

Lemma split_nl_line a rest :
  forall_chars not_LF a = true ->
  split (a +:+ nl +:+ rest) nl = a :: split rest nl.
Proof.
  intros H. rewrite (split_nl_prefix a _ H), split_nl_cons. simpl.
  rewrite append_nil_r. reflexivity.
Qed.

(** Splitting at "\n" undoes joining with "\n". *)
Lemma split_join_nl ls :
  ls <> [] ->
  Forall (fun l => forall_chars not_LF l = true) ls ->
  split (join nl ls) nl = ls.
Proof.
  intros Hne H. induction H as [|x xs Hx Hxs IH]; [contradiction|].
  destruct xs as [|y ys].
  - simpl. apply split_nl_last, Hx.
  - change (join nl (x :: y :: ys)) with (x +:+ nl +:+ join nl (y :: ys)).
    rewrite (split_nl_line _ _ Hx), IH by easy. reflexivity.
Qed.

End ComposeFacts.

Module DedentFacts.
Import Py Textwrap CoverBot PyFacts ComposeFacts.

#[local] Arguments String.append !_ _ / : simpl nomatch.
#[local] Arguments whitespace_only : simpl never.
#[local] Arguments leading_whitespace : simpl never.
#[local] Arguments strip_margin : simpl never.

(** Evaluation of [h] at its arguments that do not mention [x]. *)
Ltac compute_at h x :=
  repeat match goal with
  | |- context [h ?s] =>
    lazymatch s with context [x] => fail | _ => idtac end;
    let v := eval vm_compute in (h s) in
    progress change (h s) with v
  end.

(** [dedent] on a block of the shape that [create_call] builds, whatever
    its third line is, as long as that line is indented by the margin. *)
Lemma dedent_call_block l3 ind :
  forall_chars not_LF l3 = true ->
  whitespace_only l3 = false ->
  leading_whitespace l3 = Some ind ->
  startswith ind "    " = true ->
  dedent (join nl [""; "    try:"; l3; "    except AssertionError:";
                   "        pass"])
  = join nl [""; "try:"; strip_margin "    " l3; "except AssertionError:";
             "    pass"].
Proof.
  intros Hlf Hws Hlead Hind. unfold dedent. fold nl.
  rewrite split_join_nl; [|easy|repeat constructor; assumption].
  cbn [map]. rewrite Hws.
  compute_at whitespace_only l3. cbn [omap list_omap].
  compute_at leading_whitespace l3. rewrite Hlead.
  cbn [fold_left margin_step]. rewrite Hind.
  change (margin_step (margin_step (Some "    ") "    ") "        ")
    with (Some "    ").
  cbv iota. compute_at (strip_margin "    ") l3. reflexivity.
Qed.

Lemma all_blank_call name : all_blank (name +:+ "()") = false.
Proof.
  induction name as [|c name IH]; [reflexivity|].
  simpl. rewrite IH. apply andb_false_r.
Qed.

Lemma leading_whitespace_call name :
  exists ind, leading_whitespace (name +:+ "()") = Some ind.
Proof.
  induction name as [|c name [ind IH]]; [exists ""; reflexivity|].
  simpl. unfold leading_whitespace; fold leading_whitespace.
  destruct (is_blank c); [rewrite IH|]; simpl; eauto.
Qed.

(** The text that [create_call] returns. *)
Lemma create_call_text name :
  forall_chars not_LF name = true ->
  create_call name = guarded_invocation name.
Proof.
  intros Hname. unfold create_call, guarded_invocation.
  destruct (leading_whitespace_call name) as [ind Hind].
  pose (l3 := "        " +:+ name +:+ "()").
  transitivity
    (dedent (join nl [""; "    try:"; l3; "    except AssertionError:";
                      "        pass"])).
  { f_equal. unfold l3. simpl. rewrite !append_assoc. reflexivity. }
  rewrite (dedent_call_block l3 ("        " +:+ ind)).
  - unfold l3. simpl. rewrite !append_assoc. reflexivity.
  - unfold l3. rewrite !forall_chars_app, Hname. reflexivity.
  - unfold l3, whitespace_only. simpl. apply all_blank_call.
  - unfold l3. simpl. unfold leading_whitespace; fold leading_whitespace.
    simpl. rewrite Hind. reflexivity.
  - reflexivity.
Qed.

End DedentFacts.

(** ** Measuring one completion *)

Module MeasureFacts.
Import Py CoverBot PyFacts.

#[local] Arguments Ascii.eqb : simpl never.
#[local] Arguments String.append !_ _ / : simpl nomatch.

(** *** Sorting *)

Lemma StronglySorted_filter_Z (R : Z -> Z -> Prop) (P : Z -> Prop)
    `{forall x, Decision (P x)} (l : list Z) :
  StronglySorted R l -> StronglySorted R (filter P l).
Proof.
  induction 1 as [|x l Hl IH Hx]; [constructor|].
  rewrite filter_cons. destruct (decide (P x)); [|exact IH].
  constructor; [exact IH|].
  rewrite Forall_forall in Hx |- *.
  intros y Hy. apply list_elem_of_filter in Hy as [_ Hy]. auto.
Qed.

Lemma StronglySorted_le_lt (l : list Z) :
  StronglySorted Z.le l -> NoDup l -> StronglySorted Z.lt l.
Proof.
  induction 1 as [|x l Hl IH Hx]; intros Hnd; [constructor|].
  apply NoDup_cons in Hnd as [Hnotin Hnd].
  constructor; [auto|].
  rewrite Forall_forall in Hx |- *. intros y Hy.
  specialize (Hx y Hy). destruct (decide (x = y)) as [->|]; [contradiction|].
  lia.
Qed.

(** [sorted] on the elements of a set is strictly ascending. *)
Lemma sorted_elements_ascending (missing : gset Z) :
  StronglySorted Z.lt (sorted (elements missing)).
Proof.
  unfold sorted. apply StronglySorted_le_lt.
  - apply StronglySorted_merge_sort; apply _.
  - rewrite merge_sort_Permutation. apply NoDup_elements.
Qed.

Lemma sorted_elements_elem_of (missing : gset Z) n :
  n ∈ sorted (elements missing) <-> n ∈ missing.
Proof.
  unfold sorted. rewrite merge_sort_Permutation. apply elem_of_elements.
Qed.

(** *** Counting "\n" *)

Lemma count_nl_cons c s :
  count (String c s) nl = (if Ascii.eqb c LF then 1 else 0) + count s nl.
Proof.
  unfold count. simpl. rewrite Ascii.eqb_sym.
  destruct (Ascii.eqb c LF); reflexivity.
Qed.

Lemma lf_before_all s : lf_before s (String.length s) = count s nl.
Proof.
  induction s as [|c s IH]; [reflexivity|].
  rewrite count_nl_cons. simpl. rewrite IH. reflexivity.
Qed.

Lemma lf_before_app a b j :
  lf_before (a +:+ b) (String.length a + j)
  = lf_before a (String.length a) + lf_before b j.
Proof.
  induction a as [|c a IH]; simpl; [reflexivity|]. rewrite IH. lia.
Qed.

Lemma lf_before_le_line_ends s : forall k,
  lf_before s k <= line_ends_before s k.
Proof.
  induction s as [|c s IH]; intros [|k]; simpl; try lia.
  specialize (IH k). destruct (Ascii.eqb c LF); [lia|].
  case_if; lia.
Qed.

(** In the composed module, the response and everything after it lie
    beyond line number [target_code.count("\n") + 3]. *)
Lemma injected_code_line target response run k :
  String.length (nl +:+ target +:+ nl +:+ nl) <= k ->
  (Z.of_nat (count target nl) + 3 <
   line_number_at (composed_artifact target response run) k)%Z.
Proof.
  intros Hk. unfold line_number_at.
  pose proof (lf_before_le_line_ends (composed_artifact target response run) k)
    as Hle.
  set (prefix := nl +:+ target +:+ nl +:+ nl) in *.
  assert (Hsplit : composed_artifact target response run
                   = prefix +:+ response +:+ nl +:+ nl +:+ run +:+ nl +:+ "    ").
  { unfold composed_artifact, prefix. rewrite !append_assoc. reflexivity. }
  rewrite Hsplit in Hle |- *.
  replace k with (String.length prefix + (k - String.length prefix))
    in Hle |- * by lia.
  rewrite lf_before_app, lf_before_all in Hle.
  assert (Hcount : count prefix nl = count target nl + 3).
  { unfold prefix. rewrite <- !lf_before_all.
    change (nl +:+ target +:+ nl +:+ nl) with (String LF (target +:+ nl +:+ nl)).
    cbn [String.length lf_before].
    replace (String.length (target +:+ nl +:+ nl))
      with (String.length target + 2)
      by (rewrite length_append; reflexivity).
    rewrite lf_before_app. change (Ascii.eqb LF LF) with true. simpl. lia. }
  lia.
Qed.

(** There are at least as many lines as there are "\n". *)
Lemma count_nl_le_splitlines_bounded n s :
  String.length s <= n -> count s nl <= length (splitlines s).
Proof.
  revert s; induction n as [|n IH]; intros [|c s] Hlen; simpl in Hlen;
    try (unfold count; simpl; lia).
  rewrite count_nl_cons. cbn [splitlines].
  destruct (is_linebreak c) eqn:Hc.
  - destruct s as [|c' s''].
    + change (count "" nl) with 0. simpl. case_if; lia.
    + simpl in Hlen.
      destruct (Ascii.eqb_spec c LF) as [->|Hne].
      * change (Ascii.eqb LF CR) with false. cbn [andb length].
        pose proof (IH (String c' s'') ltac:(simpl; lia)). lia.
      * destruct (Ascii.eqb c CR && Ascii.eqb c' LF) eqn:Hcr; cbn [length].
        -- apply andb_prop in Hcr as [_ Hc']. rewrite count_nl_cons, Hc'.
           pose proof (IH s'' ltac:(lia)). lia.
        -- pose proof (IH (String c' s'') ltac:(simpl; lia)). lia.
  - destruct (Ascii.eqb_spec c LF) as [->|Hne]; [discriminate Hc|].
    pose proof (IH s ltac:(lia)) as Hs.
    destruct (splitlines s); simpl in *; lia.
Qed.

Lemma count_nl_le_splitlines s : count s nl <= length (splitlines s).
Proof. apply (count_nl_le_splitlines_bounded (String.length s)); lia. Qed.

End MeasureFacts.

(** ** The testing loop *)

Module LoopFacts.
Import Py CoverBot.

Section Loop.
Variable render : string -> list (string * value) -> string.
Variable completer : nat -> string -> string.
Variable import_under_coverage : nat -> bool -> string -> import_outcome.

Abbreviation attempt_ := (attempt render completer import_under_coverage).
Abbreviation for_range_ := (for_range render completer import_under_coverage).
Abbreviation measured_ :=
  (attempt_measured completer import_under_coverage).
Abbreviation measure_ :=
  (get_missing_lines_for_completion import_under_coverage).
Abbreviation session_ := (session render completer import_under_coverage).

(** *** [get_missing_lines_for_completion] by cases *)

Lemma measure_no_tests target response w :
  collect_test_functions response = [] ->
  measure_ target response w = (Raise NoTestFunctions, w).
Proof.
  intros H. unfold get_missing_lines_for_completion. rewrite H. reflexivity.
Qed.

Lemma measure_with_tests target response w :
  collect_test_functions response <> [] ->
  let c1 := composed_artifact target response
              (run_statements_of (collect_test_functions response)) in
  measure_ target response w
  = match import_under_coverage (cov_runs w) (test_mod_loaded w) c1 with
    | Imported missing =>
      (Ok (map str (filter (fun ln => below_target_count target ln)
                           (sorted (elements missing)))),
       mkWorld (Some c1) true (S (cov_runs w)) (completions w) (stdout w))
    | ImportRaises cls b =>
      (Raise (ImportFailure cls b),
       mkWorld (Some c1) (test_mod_loaded w) (S (cov_runs w))
               (completions w) (stdout w))
    end.
Proof.
  intros H c1. unfold get_missing_lines_for_completion.
  destruct (collect_test_functions response) as [|name names] eqn:E;
    [contradiction|].
  fold c1. unfold bind, get_missing_coverage_lines, ret.
  destruct (import_under_coverage (cov_runs w) (test_mod_loaded w) c1);
    reflexivity.
Qed.

(** A list that the function returns comes from a module that was
    imported, and it is the filtered, sorted set of its missing lines. *)
Lemma measure_returns target response w ls :
  fst (measure_ target response w) = Ok ls ->
  collect_test_functions response <> []
  /\ exists missing : gset Z,
       ls = map str (filter (fun ln => below_target_count target ln)
                            (sorted (elements missing))).
Proof.
  intros H.
  destruct (collect_test_functions response) as [|name names] eqn:E.
  - rewrite (measure_no_tests _ _ _ E) in H. discriminate.
  - split; [discriminate|].
    rewrite measure_with_tests in H by (rewrite E; discriminate).
    destruct (import_under_coverage _ _ _) as [missing|cls b];
      simpl in H; [|discriminate].
    exists missing. congruence.
Qed.

(** One turn of the loop is determined by the attempt it records. *)
Lemma attempt_step target i v w :
  exists a w',
    attempt_ target i v w = (control_of a, vars_after target v a, w')
    /\ attempt_index a = i
    /\ attempt_prompt a = current_prompt render target v
    /\ measured_ target a.
Proof.
  unfold attempt, query, complete, bind, ret, print. simpl.
  fold (current_prompt render target v).
  set (prompt := current_prompt render target v).
  set (response := completer (completions w) prompt).
  match goal with
  | |- context [get_missing_lines_for_completion _ _ _ ?w2] =>
    set (w2' := w2)
  end.
  destruct (get_missing_lines_for_completion import_under_coverage
              target response w2') as [r w3] eqn:Hr.
  exists (mkAttempt i prompt response r), w3.
  split; [|split; [reflexivity|split; [reflexivity|]]].
  - unfold control_of, vars_after. simpl.
    destruct r as [[|l ls]|e]; simpl; [reflexivity|reflexivity|].
    destruct (isinstance_SyntaxError e); reflexivity.
  - split; simpl; [exists (completions w); reflexivity|].
    exists w2'. rewrite Hr. reflexivity.
Qed.

Lemma vars_after_log target v a :
  attempt_log (vars_after target v a) = attempt_log v ++ [a]
  /\ target_dialog (vars_after target v a)
     = target_dialog v ++ [dialog_of target a].
Proof. unfold vars_after. destruct (attempt_lines a); split; reflexivity. Qed.

(** After an attempt that lets the loop go on, [query] builds the prompt
    that [next_prompt] names. *)
Lemma current_prompt_after target v a :
  control_of a = Next ->
  current_prompt render target (vars_after target v a)
  = next_prompt render target a.
Proof.
  unfold control_of, current_prompt, next_prompt, vars_after.
  destruct (attempt_lines a) as [[|l ls]|e]; simpl; try discriminate;
    [reflexivity|].
  destruct (isinstance_SyntaxError e); [reflexivity|discriminate].
Qed.

Lemma control_of_Break a : control_of a = Break -> attempt_lines a = Ok [].
Proof.
  unfold control_of. destruct (attempt_lines a) as [[|l ls]|e];
    try discriminate; [reflexivity|].
  destruct (isinstance_SyntaxError e); discriminate.
Qed.

Lemma control_of_Propagate a e :
  control_of a = Propagate e ->
  attempt_lines a = Raise e /\ isinstance_SyntaxError e = false.
Proof.
  unfold control_of. destruct (attempt_lines a) as [[|l ls]|e'];
    try discriminate.
  destruct (isinstance_SyntaxError e') eqn:E; [discriminate|].
  intros [= ->]. split; [reflexivity|assumption].
Qed.

(** The attempts that a run of the loop adds to the log. *)
Lemma for_range_log target n : forall k v w st v' w',
  for_range_ target (seq k n) v w = (st, v', w') ->
  exists new,
    attempt_log v' = attempt_log v ++ new
    /\ target_dialog v' = target_dialog v ++ map (dialog_of target) new
    /\ length new <= n
    /\ Forall (measured_ target) new
    /\ (forall j a, new !! j = Some a -> attempt_index a = k + j)
    /\ (forall j a, new !! j = Some a -> S j < length new -> continuing a)
    /\ (forall j a a', new !! j = Some a -> new !! S j = Some a' ->
                       attempt_prompt a' = next_prompt render target a)
    /\ (forall a, new !! 0 = Some a ->
                  attempt_prompt a = current_prompt render target v)
    /\ ends_with st new n.
Proof.
  induction n as [|n IH]; intros k v w st v' w' Hrun.
  - simpl in Hrun. injection Hrun as Hs Hv Hw; subst st v' w'. exists [].
    rewrite !app_nil_r.
    split_and!; try reflexivity; try (intros; discriminate); try constructor;
      try reflexivity; intros; discriminate.
  - cbn [seq for_range] in Hrun.
    destruct (attempt_step target k v w) as (a & w1 & Hstep & Hi & Hp & Hm).
    rewrite Hstep in Hrun.
    destruct (vars_after_log target v a) as [Hlog Hdia].
    destruct (control_of a) eqn:Hctl.
    + apply IH in Hrun
        as (new & Hl & Hd & Hlen & Hall & Hidx & Hcont & Hchain & Hfirst & Hend).
      exists (a :: new). rewrite Hl, Hd, Hlog, Hdia, <- !app_assoc.
      split_and!.
      * reflexivity.
      * reflexivity.
      * simpl; lia.
      * constructor; assumption.
      * intros [|j] b Hb; simpl in Hb.
        -- injection Hb as <-. lia.
        -- rewrite (Hidx _ _ Hb). lia.
      * intros [|j] b Hb Hj; simpl in Hb, Hj.
        -- injection Hb as <-. exact Hctl.
        -- apply (Hcont j); [assumption|lia].
      * intros [|j] b b' Hb Hb'; simpl in Hb, Hb'.
        -- injection Hb as <-. rewrite (Hfirst _ Hb').
           apply current_prompt_after, Hctl.
        -- eapply Hchain; eassumption.
      * intros b [= <-]. exact Hp.
      * destruct new as [|b new'].
        -- destruct st; simpl in Hend |- *.
           ++ destruct Hend as (b & Hb & _). discriminate.
           ++ destruct Hend as [<- _]. split; [reflexivity|].
              intros b [= <-]. exact Hctl.
           ++ destruct Hend as (b & Hb & _). discriminate.
        -- destruct st; simpl in Hend |- *.
           ++ exact Hend.
           ++ destruct Hend as [<- Hlast]. split; [reflexivity|exact Hlast].
           ++ exact Hend.
    + injection Hrun as Hs Hv Hw; subst st v' w'. exists [a].
      rewrite Hlog, Hdia. split_and!.
      * reflexivity.
      * reflexivity.
      * simpl; lia.
      * constructor; [assumption|constructor].
      * intros [|j] b Hb; simpl in Hb; [|discriminate].
        injection Hb as <-. lia.
      * intros j b _ Hj. simpl in Hj. lia.
      * intros [|j] b b' _ Hb'; simpl in Hb'; discriminate.
      * intros b [= <-]. exact Hp.
      * exists a. split; [reflexivity|apply control_of_Break, Hctl].
    + injection Hrun as Hs Hv Hw; subst st v' w'. exists [a].
      rewrite Hlog, Hdia. split_and!.
      * reflexivity.
      * reflexivity.
      * simpl; lia.
      * constructor; [assumption|constructor].
      * intros [|j] b Hb; simpl in Hb; [|discriminate].
        injection Hb as <-. lia.
      * intros j b _ Hj. simpl in Hj. lia.
      * intros [|j] b b' _ Hb'; simpl in Hb'; discriminate.
      * intros b [= <-]. exact Hp.
      * exists a. split; [reflexivity|apply control_of_Propagate, Hctl].
Qed.

(** *** One session *)

Lemma session_log target B w st v w' :
  session_ target B w = (st, v, w') ->
  target_dialog v = map (dialog_of target) (attempt_log v)
  /\ length (attempt_log v) <= B
  /\ Forall (measured_ target) (attempt_log v)
  /\ (forall j a, attempt_log v !! j = Some a -> attempt_index a = j)
  /\ (forall j a, attempt_log v !! j = Some a ->
                  S j < length (attempt_log v) -> continuing a)
  /\ (forall j a a', attempt_log v !! j = Some a ->
                     attempt_log v !! S j = Some a' ->
                     attempt_prompt a' = next_prompt render target a)
  /\ (forall a, attempt_log v !! 0 = Some a ->
                attempt_prompt a = construct_prompt render target)
  /\ ends_with st (attempt_log v) B.
Proof.
  unfold session. intros H.
  apply for_range_log in H as (new & Hl & Hd & H). simpl in Hl, Hd.
  rewrite Hl, Hd. split; [reflexivity|exact H].
Qed.

Lemma last_attempt (log : list Attempt) i a :
  log !! i = Some a -> ~ S i < length log -> last log = Some a.
Proof.
  intros Hi Hlast. pose proof (lookup_lt_Some _ _ _ Hi) as Hlt.
  rewrite last_lookup. replace (pred (length log)) with i by lia. exact Hi.
Qed.

(** An attempt that ends the loop is the last one and fixes the status. *)
Lemma session_stop target B w st v w' i a :
  session_ target B w = (st, v, w') ->
  attempt_log v !! i = Some a ->
  control_of a <> Next ->
  length (attempt_log v) = S i
  /\ match control_of a with
     | Break => st = covered
     | Propagate e => st = aborted e
     | Next => False
     end.
Proof.
  intros Hrun Hi Hstop.
  destruct (session_log _ _ _ _ _ _ Hrun)
    as (_ & _ & _ & _ & Hcont & _ & _ & Hend).
  assert (Hnot : ~ S i < length (attempt_log v))
    by (intros Hlt; apply Hstop, (Hcont i a Hi Hlt)).
  pose proof (lookup_lt_Some _ _ _ Hi) as Hlt.
  split; [lia|].
  pose proof (last_attempt _ _ _ Hi Hnot) as Hlast.
  destruct st as [| |e]; simpl in Hend.
  - destruct Hend as (b & Hb & Hlines). rewrite Hlast in Hb.
    injection Hb as <-. unfold control_of. rewrite Hlines. reflexivity.
  - destruct Hend as [_ Hc]. exfalso. apply Hstop, Hc, Hlast.
  - destruct Hend as (b & Hb & Hlines & Hcls). rewrite Hlast in Hb.
    injection Hb as <-. unfold control_of. rewrite Hlines, Hcls. reflexivity.
Qed.

(** After an attempt that lets the loop go on comes another one whenever
    the budget allows, with the prompt built from that attempt; otherwise
    the budget is exhausted. *)
Lemma session_continue target B w st v w' i a :
  session_ target B w = (st, v, w') ->
  attempt_log v !! i = Some a ->
  continuing a ->
  (S i < B ->
   exists a', attempt_log v !! S i = Some a'
              /\ attempt_prompt a' = next_prompt render target a)
  /\ (length (attempt_log v) = S i -> st = budget_exhausted /\ B = S i).
Proof.
  intros Hrun Hi Hgo.
  destruct (session_log _ _ _ _ _ _ Hrun)
    as (_ & Hlen & _ & _ & _ & Hchain & _ & Hend).
  pose proof (lookup_lt_Some _ _ _ Hi) as Hlt.
  assert (Hlast : length (attempt_log v) = S i ->
                  st = budget_exhausted /\ B = S i).
  { intros Hl. assert (Hla : last (attempt_log v) = Some a)
      by (apply (last_attempt _ i); [assumption|lia]).
    unfold continuing in Hgo.
    destruct st as [| |e]; simpl in Hend.
    - destruct Hend as (b & Hb & Hlines). rewrite Hla in Hb.
      injection Hb as <-. unfold control_of in Hgo. rewrite Hlines in Hgo.
      discriminate.
    - destruct Hend as [HB _]. split; [reflexivity|lia].
    - destruct Hend as (b & Hb & Hlines & Hcls). rewrite Hla in Hb.
      injection Hb as <-. unfold control_of in Hgo.
      rewrite Hlines, Hcls in Hgo. discriminate. }
  split; [|exact Hlast].
  intros HB.
  destruct (decide (length (attempt_log v) = S i)) as [Hl|Hl];
    [destruct (Hlast Hl); lia|].
  destruct (lookup_lt_is_Some_2 (attempt_log v) (S i)) as [a' Ha']; [lia|].
  exists a'. split; [exact Ha'|]. eapply Hchain; eassumption.
Qed.

End Loop.

End LoopFacts.


(** * The claims *)

Import Py Textwrap CoverBot Scenario.
Import PyFacts ParserFacts ComposeFacts DedentFacts MeasureFacts LoopFacts.

(** ** The response parser (C5) *)

(** The specification's parser accepts an indented declaration, the
    program's does not: on a response whose only test is a method of a
    class the two differ. *)
Lemma collect_test_functions_indented_counterexample :
  collect_test_functions indented_response
  <> spec_collect_test_functions indented_response.
Proof. vm_compute. discriminate. Qed.

(** A name that contains [def] is cut at that place. *)
Example collect_test_functions_inner_def :
  collect_test_functions "def test_default_value():" = ["test_"].
Proof. reflexivity. Qed.

(** C5, amended: [collect_test_functions] returns one name for each line of
    the response that begins, without any trimming, with [def test], in
    the order of the lines; when the rest of such a line holds no further
    [def], its name is the text between the keyword and the first opening
    parenthesis, stripped of whitespace. *)
Theorem collect_test_functions_untrimmed (response : string) :
  Forall2
    (fun line name =>
       contains (after_keyword line) "def" = false ->
       name = declared_name line)
    (filter qualifies (splitlines response))
    (collect_test_functions response).
Proof.
  rewrite collect_test_functions_unfold.
  assert (H : Forall qualifies (filter qualifies (splitlines response))).
  { apply Forall_forall. intros x Hx.
    apply list_elem_of_filter in Hx as [Hx _]. exact Hx. }
  induction H as [|line ls Hq _ IH]; simpl; constructor; [|exact IH].
  intros Hno. apply parsed_name_declared; [apply Is_true_true, Hq|exact Hno].
Qed.

Lemma collect_test_functions_untrimmed_witness :
  Forall2
    (fun line name =>
       contains (after_keyword line) "def" = false ->
       name = declared_name line)
    (filter qualifies (splitlines full_response))
    (collect_test_functions full_response).
Proof. apply (collect_test_functions_untrimmed full_response). Defined.

(** ** The composed module (C8) *)

(** C8: the text handed to the coverage measurement is, in this order, the
    target code, the response, and for each parsed name in list order the
    block that calls it under [try] and passes on [except AssertionError]
    only; and that is the text written to [test_mod.py] whenever a name
    was parsed. *)
Theorem composed_artifact_layout
    (import_under_coverage : nat -> bool -> string -> import_outcome)
    (target_code response : string) (w : World) :
  let names := collect_test_functions response in
  let c1 := composed_artifact target_code response (run_statements_of names) in
  c1 = nl +:+ target_code +:+ nl +:+
       nl +:+ response +:+ nl +:+
       nl +:+ join nl (map guarded_invocation names) +:+ nl +:+
       "    "
  /\ (names <> [] ->
      test_mod_py
        (snd (get_missing_lines_for_completion import_under_coverage
                target_code response w)) = Some c1).
Proof.
  intros names c1. split.
  - unfold c1, composed_artifact, run_statements_of.
    replace (map create_call names) with (map guarded_invocation names);
      [reflexivity|].
    apply List.map_ext_Forall.
    eapply Forall_impl; [apply collect_test_functions_no_LF|].
    intros name Hname. symmetry. apply create_call_text, Hname.
  - intros Hne. rewrite measure_with_tests by exact Hne. fold names. fold c1.
    destruct (import_under_coverage (cov_runs w) (test_mod_loaded w) c1);
      reflexivity.
Qed.

Lemma composed_artifact_layout_witness :
  let names := collect_test_functions partial_response in
  let c1 := composed_artifact some_function_source partial_response
              (run_statements_of names) in
  c1 = nl +:+ some_function_source +:+ nl +:+
       nl +:+ partial_response +:+ nl +:+
       nl +:+ join nl (map guarded_invocation names) +:+ nl +:+
       "    "
  /\ (names <> [] ->
      test_mod_py
        (snd (get_missing_lines_for_completion else_branch_missed
                some_function_source partial_response initial_world))
      = Some c1).
Proof.
  apply (composed_artifact_layout else_branch_missed some_function_source
           partial_response initial_world).
Defined.

(** ** The prompt (C9) *)

(** C9: with an empty test code, [query] builds the same prompt, and gives
    the same result altogether, whatever the list of missing lines is: the
    prompt is [construct_prompt] of the target code. *)
Theorem query_initial_prompt_ignores_lines
    (render : string -> list (string * value) -> string)
    (completer : string -> M string)
    (target_code test_code : string) (L1 L2 : list string) (w : World) :
  test_code = "" ->
  query render completer target_code test_code L1 w
  = query render completer target_code test_code L2 w
  /\ forall prompt response w',
       query render completer target_code test_code L1 w
       = (Ok (prompt, response), w') ->
       prompt = construct_prompt render target_code.
Proof.
  intros ->. unfold query. simpl. split; [reflexivity|].
  intros prompt response w'. unfold bind, ret.
  destruct (completer (construct_prompt render target_code) w)
    as [[r|e] w1]; intros [= <- _ _] || intros [=]. reflexivity.
Qed.

Lemma query_initial_prompt_ignores_lines_witness :
  query render_placeholders (complete (always full_response))
        some_function_source "" ["6"] initial_world
  = query render_placeholders (complete (always full_response))
          some_function_source "" ["6"; "8"] initial_world
  /\ forall prompt response w',
       query render_placeholders (complete (always full_response))
             some_function_source "" ["6"] initial_world
       = (Ok (prompt, response), w') ->
       prompt = construct_prompt render_placeholders some_function_source.
Proof.
  apply (query_initial_prompt_ignores_lines render_placeholders
           (complete (always full_response)) some_function_source ""
           ["6"] ["6"; "8"] initial_world).
  reflexivity.
Defined.

(** ** Measuring one completion (C6, C10) *)

(** C6: when no test function is parsed from the response,
    [get_missing_lines_for_completion] raises its own [SyntaxError] and
    leaves the world as it was: no file is written and no measurement is
    run.  When a test function is parsed, that error is not raised: the
    composed module is written and measured once. *)
Theorem no_test_functions_raises
    (import_under_coverage : nat -> bool -> string -> import_outcome)
    (target_code response : string) (w : World) :
  let r := get_missing_lines_for_completion import_under_coverage
             target_code response w in
  (collect_test_functions response = [] -> r = (Raise NoTestFunctions, w))
  /\ (collect_test_functions response <> [] ->
      fst r <> Raise NoTestFunctions
      /\ cov_runs (snd r) = S (cov_runs w)
      /\ test_mod_py (snd r)
         = Some (composed_artifact target_code response
                   (run_statements_of (collect_test_functions response)))).
Proof.
  intros r. split; intros H.
  - apply measure_no_tests, H.
  - unfold r. rewrite measure_with_tests by exact H.
    destruct (import_under_coverage _ _ _); simpl; split_and!;
      (discriminate || reflexivity).
Qed.

Lemma no_test_functions_raises_witness :
  get_missing_lines_for_completion all_lines_run some_function_source
    prose_response initial_world
  = (Raise NoTestFunctions, initial_world)
  /\ fst (get_missing_lines_for_completion all_lines_run some_function_source
            full_response initial_world) <> Raise NoTestFunctions.
Proof.
  split.
  - apply (no_test_functions_raises all_lines_run some_function_source
             prose_response initial_world).
    reflexivity.
  - apply (no_test_functions_raises all_lines_run some_function_source
             full_response initial_world).
    vm_compute. discriminate.
Defined.

(** [str] writes integers in decimal. *)
Example str_decimal : map str [0; 6; 17; -3]%Z = ["0"; "6"; "17"; "-3"].
Proof. reflexivity. Qed.

(** C10: when a test function is parsed, a list that
    [get_missing_lines_for_completion] returns is a list of strings, each
    the decimal form [str n] of an integer, in strictly ascending order of
    these integers; and a list is returned whenever the import of the
    composed module ends without an exception. *)
Theorem missing_lines_sorted_decimal
    (import_under_coverage : nat -> bool -> string -> import_outcome)
    (target_code response : string) (w : World) :
  collect_test_functions response <> [] ->
  let r := get_missing_lines_for_completion import_under_coverage
             target_code response w in
  (forall ls, fst r = Ok ls ->
     exists ns : list Z, ls = map str ns /\ StronglySorted Z.lt ns)
  /\ (forall missing,
        import_under_coverage (cov_runs w) (test_mod_loaded w)
          (composed_artifact target_code response
             (run_statements_of (collect_test_functions response)))
        = Imported missing ->
        exists ls, fst r = Ok ls).
Proof.
  intros Hne r. split.
  - intros ls Hls. apply measure_returns in Hls as [_ [missing ->]].
    eexists. split; [reflexivity|].
    apply StronglySorted_filter_Z, sorted_elements_ascending.
  - intros missing Hm. unfold r. rewrite measure_with_tests by exact Hne.
    rewrite Hm. eexists. reflexivity.
Qed.

Lemma missing_lines_sorted_decimal_witness :
  exists ns : list Z,
    ["6"] = map str ns /\ StronglySorted Z.lt ns.
Proof.
  apply (missing_lines_sorted_decimal else_branch_missed some_function_source
           partial_response initial_world).
  - vm_compute. discriminate.
  - vm_compute. reflexivity.
Defined.

(** ** Sessions (C1, C2, C3, C4, C7) *)

Section Sessions.
Variable render : string -> list (string * value) -> string.
Variable completer : nat -> string -> string.
Variable import_under_coverage : nat -> bool -> string -> import_outcome.

Abbreviation session' := (session render completer import_under_coverage).
Abbreviation attempt' := (attempt render completer import_under_coverage).

Lemma session_parts target B w :
  session' target B w
  = (status_of (session' target B w), vars_of (session' target B w),
     world_of (session' target B w)).
Proof. destruct (session' target B w) as [[st v] w']. reflexivity. Qed.

(** C1, amended: for every budget [B] and whatever the completer and the
    measurements answer, the loop for one target makes at most [B] attempts
    (and at least one when [B >= 1]) and ends; it ends covered after an
    attempt with no missing line, or budget-exhausted after [B] attempts,
    unless the import of a composed module raises an exception that is no
    [SyntaxError]: that exception leaves the loop after the attempt that
    raised it. *)
Theorem session_terminates_within_budget target B w :
  let r := session' target B w in
  let log := attempt_log (vars_of r) in
  length log <= B
  /\ (1 <= B -> 1 <= length log)
  /\ length (target_dialog (vars_of r)) = length log
  /\ match status_of r with
     | covered => exists a, last log = Some a /\ attempt_lines a = Ok []
     | budget_exhausted => length log = B
     | aborted e =>
       exists a cls, last log = Some a /\ e = ImportFailure cls false
                     /\ attempt_lines a = Raise e
     end.
Proof.
  intros r log.
  destruct (session_log _ _ _ _ _ _ _ _ _ (session_parts target B w))
    as (Hd & Hlen & _ & _ & _ & _ & _ & Hend).
  fold r in Hd, Hlen, Hend. fold log in Hd, Hlen, Hend.
  split_and!.
  - exact Hlen.
  - intros HB. destruct log as [|a l]; [|simpl; lia].
    destruct (status_of r); simpl in Hend.
    + destruct Hend as (a & Ha & _). discriminate.
    + destruct Hend as [Hl _]. simpl in Hl. lia.
    + destruct Hend as (a & Ha & _). discriminate.
  - rewrite Hd. apply length_map.
  - destruct (status_of r) as [| |e]; simpl in Hend.
    + exact Hend.
    + apply Hend.
    + destruct Hend as (a & Ha & Hl & He).
      destruct e as [|cls b]; simpl in He; [discriminate|]. subst b.
      exists a, cls. auto.
Qed.

(** C2: if the missing-line list of attempt [i] is empty, the session ends
    covered and attempt [i] is the last one made. *)
Theorem empty_missing_lines_end_session target B w i a :
  let r := session' target B w in
  attempt_log (vars_of r) !! i = Some a ->
  attempt_lines a = Ok [] ->
  status_of r = covered
  /\ length (attempt_log (vars_of r)) = S i
  /\ forall j a', attempt_log (vars_of r) !! j = Some a' -> j <= i.
Proof.
  intros r Hi Hlines.
  assert (Hctl : control_of a = Break)
    by (unfold control_of; rewrite Hlines; reflexivity).
  destruct (session_stop _ _ _ _ _ _ _ _ _ _ _
              (session_parts target B w) Hi) as [Hlen Hst].
  { rewrite Hctl. discriminate. }
  rewrite Hctl in Hst. fold r in Hlen, Hst. split_and!; [assumption..|].
  intros j a' Hj. apply lookup_lt_Some in Hj. lia.
Qed.

(** C3: every element of every recorded missing-line list is the decimal
    form of an integer below the number of "\n" of the target code, hence
    below its number of lines, and below the line number of every
    character of the response and of the invocations in the composed
    module. *)
Theorem recorded_lines_below_target_count target B w i a ls :
  let r := session' target B w in
  attempt_log (vars_of r) !! i = Some a ->
  attempt_lines a = Ok ls ->
  Forall
    (fun s =>
       exists n : Z,
         s = str n
         /\ (n < Z.of_nat (count target nl))%Z
         /\ (n < Z.of_nat (length (splitlines target)))%Z
         /\ forall k,
              String.length (nl +:+ target +:+ nl +:+ nl) <= k ->
              (n < line_number_at
                     (composed_artifact target (attempt_response a)
                        (run_statements_of
                           (collect_test_functions (attempt_response a))))
                     k)%Z)
    ls.
Proof.
  intros r Hi Hlines.
  destruct (session_log _ _ _ _ _ _ _ _ _ (session_parts target B w))
    as (_ & _ & Hall & _).
  rewrite Forall_lookup in Hall. destruct (Hall i a Hi) as [_ [w0 Hm]].
  rewrite Hlines in Hm. symmetry in Hm.
  apply measure_returns in Hm as [_ [missing ->]].
  apply List.Forall_map, Forall_forall. intros n Hn.
  apply list_elem_of_filter in Hn as [Hbelow _].
  unfold below_target_count in Hbelow. apply Is_true_true, Z.ltb_lt in Hbelow.
  exists n. split_and!; [reflexivity|exact Hbelow| |].
  - pose proof (count_nl_le_splitlines target). lia.
  - intros k Hk.
    pose proof (injected_code_line target (attempt_response a)
                  (run_statements_of
                     (collect_test_functions (attempt_response a))) k Hk).
    lia.
Qed.

(** C4, amended: when the import of the composed module of an attempt
    raises an exception, a [SyntaxError] is caught: the loop goes on, the
    next attempt, if the budget allows one, is prompted in the initial
    form, and otherwise the budget is exhausted; any other exception is not
    caught: it leaves the loop, and no further attempt is made. *)
Theorem import_exception_handling target B w i a cls b :
  let r := session' target B w in
  attempt_log (vars_of r) !! i = Some a ->
  attempt_lines a = Raise (ImportFailure cls b) ->
  if b then
    (S i < B ->
     exists a', attempt_log (vars_of r) !! S i = Some a'
                /\ attempt_prompt a' = construct_prompt render target)
    /\ (length (attempt_log (vars_of r)) = S i ->
        status_of r = budget_exhausted /\ B = S i)
  else
    status_of r = aborted (ImportFailure cls false)
    /\ length (attempt_log (vars_of r)) = S i.
Proof.
  intros r Hi Hlines. destruct b.
  - assert (Hgo : continuing a)
      by (unfold continuing, control_of; rewrite Hlines; reflexivity).
    destruct (session_continue _ _ _ _ _ _ _ _ _ _ _
                (session_parts target B w) Hi Hgo) as [Hnext Hlast].
    split; [|exact Hlast].
    intros HB. destruct (Hnext HB) as (a' & Ha' & Hp). exists a'.
    split; [exact Ha'|]. rewrite Hp. unfold next_prompt. rewrite Hlines.
    reflexivity.
  - assert (Hctl : control_of a = Propagate (ImportFailure cls false))
      by (unfold control_of; rewrite Hlines; reflexivity).
    destruct (session_stop _ _ _ _ _ _ _ _ _ _ _
                (session_parts target B w) Hi) as [Hlen Hst].
    { rewrite Hctl. discriminate. }
    rewrite Hctl in Hst. split; assumption.
Qed.

(** C7: an attempt whose response yields no test function records the
    [SyntaxError] of the empty name list and does not end the session: the
    turn of the loop sets the test code to the empty string and goes on,
    so that [query] builds the initial prompt; the next attempt, if the
    budget allows one, has that prompt, and otherwise the budget is
    exhausted. *)
Theorem unparseable_response_resets target B w i a :
  let r := session' target B w in
  attempt_log (vars_of r) !! i = Some a ->
  collect_test_functions (attempt_response a) = [] ->
  attempt_lines a = Raise NoTestFunctions
  /\ (S i < B ->
      exists a', attempt_log (vars_of r) !! S i = Some a'
                 /\ attempt_prompt a' = construct_prompt render target)
  /\ (length (attempt_log (vars_of r)) = S i ->
      status_of r = budget_exhausted /\ B = S i)
  /\ (forall j v0 w0 a0,
        let s := attempt' target j v0 w0 in
        last (attempt_log (snd (fst s))) = Some a0 ->
        collect_test_functions (attempt_response a0) = [] ->
        fst (fst s) = Next
        /\ test_code (snd (fst s)) = ""
        /\ current_prompt render target (snd (fst s))
           = construct_prompt render target).
Proof.
  intros r Hi Hnone.
  destruct (session_log _ _ _ _ _ _ _ _ _ (session_parts target B w))
    as (_ & _ & Hall & _).
  rewrite Forall_lookup in Hall. destruct (Hall i a Hi) as [_ [w1 Hm]].
  rewrite (measure_no_tests _ _ _ _ Hnone) in Hm. simpl in Hm.
  assert (Hgo : continuing a)
    by (unfold continuing, control_of; rewrite Hm; reflexivity).
  destruct (session_continue _ _ _ _ _ _ _ _ _ _ _
              (session_parts target B w) Hi Hgo) as [Hnext Hlast].
  split_and!.
  - exact Hm.
  - intros HB. destruct (Hnext HB) as (a' & Ha' & Hp). exists a'.
    split; [exact Ha'|]. rewrite Hp. unfold next_prompt. rewrite Hm.
    reflexivity.
  - exact Hlast.
  - intros j v0 w0 a0 s Hlast0 Hnone0.
    destruct (attempt_step render completer import_under_coverage
                target j v0 w0) as (a1 & w2 & Hstep & _ & _ & [_ [w3 Hm1]]).
    unfold s in *. rewrite Hstep in *. simpl in *.
    destruct (vars_after_log target v0 a1) as [Hlog _].
    rewrite Hlog, last_snoc in Hlast0. injection Hlast0 as ->.
    rewrite (measure_no_tests _ _ _ _ Hnone0) in Hm1. simpl in Hm1.
    unfold control_of, current_prompt, vars_after. rewrite Hm1. simpl.
    auto.
Qed.

End Sessions.

(** ** The claims on concrete runs *)

(** A response whose test raises [NameError] ends the session of budget 5
    neither covered nor budget-exhausted. *)
Lemma session_abort_counterexample :
  status_of (run (always broken_response) raises_NameError 5) <> covered
  /\ status_of (run (always broken_response) raises_NameError 5)
     <> budget_exhausted.
Proof. vm_compute. split; discriminate. Qed.

Lemma session_terminates_within_budget_witness :
  1 <= length (attempt_log
                 (vars_of (session render_placeholders
                             (always partial_response) else_branch_missed
                             some_function_source 3 initial_world))).
Proof.
  pose proof (session_terminates_within_budget render_placeholders
                (always partial_response) else_branch_missed
                some_function_source 3 initial_world) as H.
  cbv zeta in H. destruct H as (_ & H & _). apply H. lia.
Defined.

Lemma empty_missing_lines_end_session_witness :
  status_of (session render_placeholders (always full_response)
               all_lines_run some_function_source 5 initial_world)
  = covered.
Proof.
  epose proof (empty_missing_lines_end_session render_placeholders
                 (always full_response) all_lines_run some_function_source 5
                 initial_world 0 _) as H.
  cbv zeta in H. refine (proj1 (H _ _)).
  - vm_compute. reflexivity.
  - reflexivity.
Defined.

Lemma recorded_lines_below_target_count_witness :
  Forall
    (fun s =>
       exists n : Z,
         s = str n
         /\ (n < Z.of_nat (count some_function_source nl))%Z
         /\ (n < Z.of_nat (length (splitlines some_function_source)))%Z
         /\ forall k,
              String.length (nl +:+ some_function_source +:+ nl +:+ nl) <= k ->
              (n < line_number_at
                     (composed_artifact some_function_source partial_response
                        (run_statements_of
                           (collect_test_functions partial_response)))
                     k)%Z)
    ["6"].
Proof.
  epose proof (recorded_lines_below_target_count render_placeholders
                 (always partial_response) else_branch_missed
                 some_function_source 2 initial_world 1
                 (mkAttempt 1 _ partial_response (Ok ["6"])) ["6"]) as H.
  cbv zeta in H. refine (H _ _).
  - vm_compute. reflexivity.
  - reflexivity.
Defined.

(** With a budget of 5, the [NameError] of the first attempt is not caught:
    the session is aborted by it after one attempt, and the test code is
    kept. *)
Lemma runtime_error_propagates_counterexample :
  let r := run (always broken_response) raises_NameError 5 in
  status_of r = aborted (ImportFailure "NameError" false)
  /\ length (attempt_log (vars_of r)) = 1
  /\ test_code (vars_of r) = broken_response.
Proof. vm_compute. auto. Qed.

Lemma import_exception_handling_witness :
  status_of (session render_placeholders (always broken_response)
               raises_NameError some_function_source 5 initial_world)
  = aborted (ImportFailure "NameError" false)
  /\ length (attempt_log
               (vars_of (session render_placeholders (always broken_response)
                           raises_NameError some_function_source 5
                           initial_world)))
     = 1.
Proof.
  epose proof (import_exception_handling render_placeholders
                 (always broken_response) raises_NameError
                 some_function_source 5 initial_world 0 _ "NameError" false)
    as H.
  cbv zeta in H. refine (H _ _).
  - vm_compute. reflexivity.
  - reflexivity.
Defined.

(** The same with a module that does not compile: the session goes on to
    the end of its budget. *)
Example syntax_error_retried :
  let r := run (always full_response) raises_SyntaxError 3 in
  status_of r = budget_exhausted
  /\ length (attempt_log (vars_of r)) = 3
  /\ test_code (vars_of r) = "".
Proof. vm_compute. auto. Qed.

Lemma unparseable_response_resets_witness :
  exists a',
    attempt_log (vars_of (session render_placeholders prose_then_full
                            all_lines_run some_function_source 5
                            initial_world)) !! 1 = Some a'
    /\ attempt_prompt a'
       = construct_prompt render_placeholders some_function_source.
Proof.
  epose proof (unparseable_response_resets render_placeholders
                 prose_then_full all_lines_run some_function_source 5
                 initial_world 0 _) as H.
  cbv zeta in H. refine (proj1 (proj2 (H _ _)) _).
  - vm_compute. reflexivity.
  - reflexivity.
  - lia.
Defined.

(** * Further properties of the code *)

(** ** The functions to be tested *)

Module TargetFacts.
Import Targets.

Lemma range_nil n : (n <= 0)%Z -> range n = [].
Proof.
  intros H. unfold range. replace (Z.to_nat n) with 0 by lia. reflexivity.
Qed.

Lemma range_cons n : (0 < n)%Z -> exists l, range n = 0%Z :: l.
Proof.
  intros H. unfold range.
  destruct (Z.to_nat n) as [|m] eqn:E; [lia|]. simpl. eauto.
Qed.

(** A loop whose body always assigns the same value. *)
Lemma fold_left_const {A B} (c : A) (l : list B) (z : A) :
  l <> [] -> fold_left (fun _ _ => c) l z = c.
Proof.
  destruct l as [|b l]; [contradiction|]. intros _. simpl.
  induction l as [|b' l IH]; simpl; auto.
Qed.

End TargetFacts.

Import Targets TargetFacts.

(** X1: on integers, [some_function] returns [True] exactly when [x] is not
    zero, whatever [y] is. *)
Theorem some_function_true_iff (x y : Z) :
  some_function x y = true <-> x <> 0%Z.
Proof.
  unfold some_function.
  destruct (Z.ltb_spec x 0); destruct (Z.gtb_spec (y - x) y);
    destruct (Z.gtb_spec (y + x) y); split; intros; try lia; try congruence.
Qed.

(** X2: [some_other_function] returns [True] exactly when [x] is at least 3,
    or when [x] is not positive (the loop body never runs) and [y] is
    negative. *)
Theorem some_other_function_true_iff (x y : Z) :
  some_other_function x y = true
  <-> (3 <= x)%Z \/ ((x <= 0)%Z /\ (y < 0)%Z).
Proof.
  unfold some_other_function.
  destruct (Z.ltb_spec 0 x) as [Hpos|Hneg].
  - destruct (range_cons x Hpos) as [l Hl].
    rewrite fold_left_const by (rewrite Hl; discriminate).
    destruct (Z.ltb_spec x 3); destruct (Z.gtb_spec (y - x) y);
      destruct (Z.gtb_spec (y + x) y); split; intros; try lia;
      try congruence.
  - rewrite (range_nil x Hneg). simpl.
    destruct (Z.gtb_spec 0 y); split; intros; try lia; try congruence.
Qed.

(** ** More on the response parser *)

Module ParserMore.
Import Py CoverBot PyFacts ParserFacts.

#[local] Arguments String.append !_ _ / : simpl nomatch.

Lemma startswith_append s p :
  startswith s p = true -> exists rest, s = p +:+ rest.
Proof.
  revert s; induction p as [|a p IH]; intros s H; simpl in *.
  - exists s. reflexivity.
  - destruct s as [|b s]; [discriminate|].
    apply andb_prop in H as [Hab Hs]. apply Ascii.eqb_eq in Hab as ->.
    destruct (IH _ Hs) as [rest ->]. exists rest. reflexivity.
Qed.

Lemma rstrip_cons_nonspace c s :
  is_space c = false -> rstrip (String c s) = String c (rstrip s).
Proof. intros H. simpl. rewrite H. destruct (rstrip s); reflexivity. Qed.

Lemma rstrip_cons_nonempty c s :
  rstrip s <> "" -> rstrip (String c s) = String c (rstrip s).
Proof. intros H. simpl. destruct (rstrip s); [contradiction|reflexivity]. Qed.

(** The name parsed from a qualifying line, in closed form. *)
Lemma parsed_name_closed rest :
  parsed_name ("def test" +:+ rest)
  = "test" +:+ rstrip (before_char "("%char (item (split rest "def") 0)).
Proof.
  unfold parsed_name.
  assert (H1 : item (split ("def test" +:+ rest) "def") 1
               = " test" +:+ item (split rest "def") 0).
  { unfold split. simpl. change (item (?x :: ?l) 1) with (item l 0).
    rewrite !item_cons_head. reflexivity. }
  rewrite H1, split_paren_first. simpl.
  unfold strip.
  set (x := before_char "("%char (item (split rest "def") 0)).
  assert (H2 : rstrip ("test" +:+ x) = "test" +:+ rstrip x)
    by (simpl String.append; rewrite !rstrip_cons_nonspace by reflexivity;
        reflexivity).
  change (String " " (String "t" (String "e" (String "s" (String "t" x)))))
    with (String " " ("test" +:+ x)).
  rewrite rstrip_cons_nonempty by (rewrite H2; discriminate).
  rewrite H2. reflexivity.
Qed.

Lemma before_char_free c s :
  forall_chars (fun a => negb (Ascii.eqb a c)) (before_char c s) = true.
Proof.
  induction s as [|a s IH]; simpl; [reflexivity|].
  destruct (Ascii.eqb a c) eqn:E; simpl; [reflexivity|].
  rewrite E, IH. reflexivity.
Qed.

Lemma qualifies_filter_elem response line :
  line ∈ filter qualifies (splitlines response) ->
  exists rest, line = "def test" +:+ rest.
Proof.
  intros H. apply list_elem_of_filter in H as [Hq _].
  apply startswith_append, Is_true_true, Hq.
Qed.

(** A response splits into no lines only when it is empty. *)
Lemma splitlines_nil s : splitlines s = [] -> s = "".
Proof.
  destruct s as [|c s]; [reflexivity|]. simpl.
  destruct (is_linebreak c).
  - destruct s as [|c' s']; [discriminate|].
    destruct (Ascii.eqb c CR && Ascii.eqb c' LF); discriminate.
  - destruct (splitlines s); discriminate.
Qed.

Lemma splitlines_LF b : splitlines (String LF b) = "" :: splitlines b.
Proof. destruct b; reflexivity. Qed.

Lemma cons_head_app c x y :
  x <> [] -> cons_head c (x ++ y) = cons_head c x ++ y.
Proof. destruct x; [contradiction|reflexivity]. Qed.

(** The lines of two texts joined by "\n": those of the first, those of
    the second, and between them an empty line when the first text is
    empty or ends with a line boundary other than a lone "\r". *)
Lemma splitlines_join_bounded n : forall a b,
  String.length a <= n ->
  exists extra,
    splitlines (a +:+ nl +:+ b) = splitlines a ++ extra ++ splitlines b
    /\ (extra = [] \/ extra = [""]).
Proof.
  induction n as [|n IH]; intros [|c a] b Hlen; simpl in Hlen; try lia.
  - exists [""]. split; [apply splitlines_LF|auto].
  - exists [""]. split; [apply splitlines_LF|auto].
  - change (String c a +:+ nl +:+ b) with (String c (a +:+ nl +:+ b)).
    cbn [splitlines].
    destruct (is_linebreak c) eqn:Hc.
    + destruct a as [|c' a'].
      * change ("" +:+ nl +:+ b) with (String LF b).
        destruct (Ascii.eqb c CR) eqn:Hcr.
        -- exists []. change (Ascii.eqb LF LF) with true. cbn [andb app].
           auto.
        -- exists [""]. cbn [andb]. rewrite splitlines_LF. auto.
      * change (String c' a' +:+ nl +:+ b) with (String c' (a' +:+ nl +:+ b)).
        cbv beta iota.
        destruct (Ascii.eqb c CR && Ascii.eqb c' LF).
        -- destruct (IH a' b ltac:(simpl in Hlen; lia)) as (extra & -> & He).
           exists extra. split; [reflexivity|exact He].
        -- destruct (IH (String c' a') b ltac:(simpl in *; lia))
             as (extra & He1 & He).
           change (String c' a' +:+ nl +:+ b)
             with (String c' (a' +:+ nl +:+ b)) in He1.
           rewrite He1. exists extra. split; [reflexivity|exact He].
    + destruct a as [|c' a'].
      * change ("" +:+ nl +:+ b) with (String LF b).
        rewrite splitlines_LF. exists []. auto.
      * destruct (IH (String c' a') b ltac:(simpl in *; lia))
          as (extra & -> & He).
        exists extra. split; [|exact He].
        apply cons_head_app. intros Hnil. apply splitlines_nil in Hnil.
        discriminate.
Qed.

End ParserMore.

Import ParserMore.

(** X3: every name that [collect_test_functions] returns begins with
    [test] and holds neither an opening parenthesis nor a line boundary. *)
Theorem collected_names_shape (response : string) :
  Forall
    (fun name =>
       startswith name "test" = true
       /\ forall_chars (fun c => negb (Ascii.eqb c "("%char)) name = true
       /\ forall_chars not_linebreak name = true)
    (collect_test_functions response).
Proof.
  rewrite collect_test_functions_unfold.
  apply List.Forall_map, Forall_forall. intros line Hin.
  destruct (qualifies_filter_elem _ _ Hin) as [rest ->].
  split_and!.
  - rewrite parsed_name_closed. reflexivity.
  - rewrite parsed_name_closed, forall_chars_app.
    rewrite forall_chars_rstrip by apply before_char_free. reflexivity.
  - apply parsed_name_no_linebreak.
    apply list_elem_of_filter in Hin as [_ Hin].
    pose proof (splitlines_no_linebreak response) as Hall.
    rewrite Forall_forall in Hall. apply Hall, Hin.
Qed.


(** X5: the names collected from two texts joined by a line feed are the
    names of the first followed by the names of the second. *)
Theorem collect_test_functions_join (a b : string) :
  collect_test_functions (a +:+ nl +:+ b)
  = collect_test_functions a ++ collect_test_functions b.
Proof.
  rewrite !collect_test_functions_unfold.
  destruct (splitlines_join_bounded (String.length a) a b (le_n _))
    as (extra & -> & Hextra).
  rewrite !filter_app, !map_app.
  destruct Hextra as [-> | ->]; reflexivity.
Qed.

(** ** More on the measurement *)

Module MeasureMore.
Import Py CoverBot PyFacts MeasureFacts LoopFacts.

#[local] Arguments Ascii.eqb : simpl never.
#[local] Arguments String.append !_ _ / : simpl nomatch.

(** [str] is injective, so membership can be read through it. *)
Lemma elem_of_map_str (n : Z) (l : list Z) : str n ∈ map str l <-> n ∈ l.
Proof.
  change (map str l) with (pretty <$> l). unfold str.
  apply list_elem_of_fmap_inj. apply _.
Qed.

(** Inside the first text of a concatenation, line ends are counted as in
    that text alone. *)
Lemma line_ends_before_app a b : forall k,
  k < String.length a ->
  line_ends_before (a +:+ b) k = line_ends_before a k.
Proof.
  induction a as [|c a IH]; intros k Hk; simpl in Hk; [lia|].
  destruct k as [|k]; [reflexivity|].
  change (String c a +:+ b) with (String c (a +:+ b)). cbn [line_ends_before].
  rewrite IH by lia. f_equal.
  destruct a as [|d a]; [simpl in Hk; lia|]. reflexivity.
Qed.

(** A character of the target code sits one line lower in the composed
    module than in the target code. *)
Lemma line_number_shift target response run k :
  k < String.length target ->
  line_number_at (composed_artifact target response run) (S k)
  = (line_number_at target k + 1)%Z.
Proof.
  intros Hk. unfold line_number_at, composed_artifact.
  change (nl +:+ target +:+ ?rest) with (String LF (target +:+ rest)).
  cbn [line_ends_before]. change (Ascii.eqb LF LF) with true. cbv iota.
  rewrite line_ends_before_app by exact Hk. lia.
Qed.

End MeasureMore.

Import MeasureMore.

(** X6: [get_missing_coverage_lines] writes the code to [test_mod.py] and
    counts one measurement whether the import raises or not; when the
    import does not raise, the list it returns is strictly ascending and
    has exactly the members of the set of missing lines, and the module
    counts as loaded from then on. *)
Theorem coverage_lines_sorted_and_complete
    (import_under_coverage : nat -> bool -> string -> import_outcome)
    (code : string) (w : World) :
  let r := get_missing_coverage_lines import_under_coverage code w in
  test_mod_py (snd r) = Some code
  /\ cov_runs (snd r) = S (cov_runs w)
  /\ match import_under_coverage (cov_runs w) (test_mod_loaded w) code with
     | Imported missing =>
       exists l, fst r = Ok l /\ StronglySorted Z.lt l
                 /\ (forall n, n ∈ l <-> n ∈ missing)
                 /\ test_mod_loaded (snd r) = true
     | ImportRaises cls b =>
       fst r = Raise (ImportFailure cls b)
       /\ test_mod_loaded (snd r) = test_mod_loaded w
     end.
Proof.
  intros r. unfold r, get_missing_coverage_lines.
  destruct (import_under_coverage (cov_runs w) (test_mod_loaded w) code)
    as [missing|cls b]; simpl; split_and!; try reflexivity.
  eexists. split_and!; [reflexivity| | |reflexivity].
  - apply sorted_elements_ascending.
  - apply sorted_elements_elem_of.
Qed.

(** X7: when a test function is parsed and the import does not raise,
    [get_missing_lines_for_completion] returns [str n] exactly for the
    missing lines [n] below the number of line feeds of the target code:
    none of them is left out, and no other line is reported. *)
Theorem reported_iff_missing_below_count
    (import_under_coverage : nat -> bool -> string -> import_outcome)
    (target_code response : string) (w : World) (missing : gset Z) :
  collect_test_functions response <> [] ->
  import_under_coverage (cov_runs w) (test_mod_loaded w)
    (composed_artifact target_code response
       (run_statements_of (collect_test_functions response)))
  = Imported missing ->
  exists ls,
    fst (get_missing_lines_for_completion import_under_coverage
           target_code response w) = Ok ls
    /\ forall n : Z,
         str n ∈ ls
         <-> n ∈ missing /\ (n < Z.of_nat (count target_code nl))%Z.
Proof.
  intros Hne Himp. rewrite measure_with_tests by exact Hne. rewrite Himp.
  eexists. split; [reflexivity|]. intros n.
  rewrite elem_of_map_str, list_elem_of_filter, sorted_elements_elem_of.
  unfold below_target_count. rewrite Is_true_true, Z.ltb_lt. tauto.
Qed.

Lemma reported_iff_missing_below_count_witness :
  exists ls,
    fst (get_missing_lines_for_completion else_branch_missed
           some_function_source partial_response initial_world) = Ok ls
    /\ forall n : Z,
         str n ∈ ls
         <-> n ∈ ({[ 17%Z; 6%Z ]} : gset Z)
             /\ (n < Z.of_nat (count some_function_source nl))%Z.
Proof.
  apply (reported_iff_missing_below_count else_branch_missed
           some_function_source partial_response initial_world).
  - vm_compute. discriminate.
  - reflexivity.
Defined.

(** X8: the line numbers are those of the composed module, in which every
    character of the target code sits one line lower than in the target
    code itself. *)
Theorem target_lines_shifted_by_one
    (target_code response run_statements : string) (k : nat) :
  k < String.length target_code ->
  line_number_at (composed_artifact target_code response run_statements)
                 (S k)
  = (line_number_at target_code k + 1)%Z.
Proof. apply line_number_shift. Qed.

Lemma target_lines_shifted_by_one_witness :
  line_number_at
    (composed_artifact some_function_source partial_response "") (S 30)
  = (line_number_at some_function_source 30 + 1)%Z.
Proof.
  apply (target_lines_shifted_by_one some_function_source partial_response
           "" 30).
  vm_compute. lia.
Defined.

(** X9: a statement on one of the last two lines of the target code, those
    numbered from [target_code.count("\n") - 1] on, is never in the list
    that [get_missing_lines_for_completion] returns, whatever the
    measurement found missing. *)
Theorem last_target_lines_never_reported
    (import_under_coverage : nat -> bool -> string -> import_outcome)
    (target_code response : string) (w : World) (ls : list string)
    (k : nat) :
  fst (get_missing_lines_for_completion import_under_coverage
         target_code response w) = Ok ls ->
  k < String.length target_code ->
  (Z.of_nat (count target_code nl) - 1 <= line_number_at target_code k)%Z ->
  str (line_number_at
         (composed_artifact target_code response
            (run_statements_of (collect_test_functions response)))
         (S k)) ∉ ls.
Proof.
  intros Hls Hk Hline Hin.
  apply measure_returns in Hls as [_ [missing ->]].
  rewrite elem_of_map_str in Hin.
  apply list_elem_of_filter in Hin as [Hbelow _].
  unfold below_target_count in Hbelow. apply Is_true_true, Z.ltb_lt in Hbelow.
  rewrite line_number_shift in Hbelow by exact Hk. lia.
Qed.

Lemma last_target_lines_never_reported_witness :
  str (line_number_at
         (composed_artifact some_function_source partial_response
            (run_statements_of (collect_test_functions partial_response)))
         (S 130)) ∉ ["6"].
Proof.
  apply (last_target_lines_never_reported branch_and_return_missed
           some_function_source partial_response initial_world ["6"] 130).
  - vm_compute. reflexivity.
  - vm_compute. lia.
  - vm_compute. discriminate.
Defined.

(** ** More on the testing loop *)

Module LoopMore.
Import Py CoverBot Accounting PyFacts LoopFacts.

Section Effects.
Variable render : string -> list (string * value) -> string.
Variable completer : nat -> string -> string.
Variable import_under_coverage : nat -> bool -> string -> import_outcome.

Abbreviation attempt_ := (attempt render completer import_under_coverage).
Abbreviation for_range_ := (for_range render completer import_under_coverage).
Abbreviation session_ := (session render completer import_under_coverage).
Abbreviation measure_ :=
  (get_missing_lines_for_completion import_under_coverage).

(** What a call of [get_missing_lines_for_completion] does to the
    counters. *)
Lemma measure_effects target response w :
  let w' := snd (measure_ target response w) in
  completions w' = completions w
  /\ stdout w' = stdout w
  /\ cov_runs w'
     = cov_runs w
       + (if decide (collect_test_functions response = []) then 0 else 1).
Proof.
  destruct (decide (collect_test_functions response = [])) as [He|Hne].
  - rewrite (measure_no_tests _ _ _ _ He). simpl. split_and!; auto; lia.
  - rewrite measure_with_tests by exact Hne.
    destruct (import_under_coverage _ _ _); simpl; split_and!; auto; lia.
Qed.

(** One turn of the loop, with its effects. *)
Lemma attempt_effects target i v w :
  exists a w',
    attempt_ target i v w = (control_of a, vars_after target v a, w')
    /\ attempt_response a = completer (completions w) (attempt_prompt a)
    /\ completions w' = S (completions w)
    /\ length (stdout w') = length (stdout w) + 3
    /\ cov_runs w' = cov_runs w + length (filter tested [a]).
Proof.
  unfold attempt, query, complete, bind, ret, print. simpl.
  fold (current_prompt render target v).
  set (prompt := current_prompt render target v).
  set (response := completer (completions w) prompt).
  match goal with
  | |- context [get_missing_lines_for_completion _ _ _ ?w2] =>
    set (w2' := w2)
  end.
  pose proof (measure_effects target response w2') as (Hc & Hs & Hr).
  destruct (measure_ target response w2') as [r w3] eqn:Hm.
  simpl in Hc, Hs, Hr.
  exists (mkAttempt i prompt response r), w3. split_and!.
  - unfold control_of, vars_after. simpl.
    destruct r as [[|l ls]|e]; simpl; [reflexivity|reflexivity|].
    destruct (isinstance_SyntaxError e); reflexivity.
  - reflexivity.
  - rewrite Hc. reflexivity.
  - rewrite Hs. unfold w2'. simpl. rewrite !length_app. simpl. lia.
  - rewrite Hr. unfold w2'. simpl. rewrite filter_cons, filter_nil.
    unfold tested at 1. simpl.
    destruct (decide (collect_test_functions response = [])) as [He|Hne].
    + rewrite decide_False by (intros H; exact (H He)). reflexivity.
    + rewrite decide_True by exact Hne. reflexivity.
Qed.

(** The effects of a run of the loop. *)
Lemma for_range_effects target n : forall k v w st v' w',
  for_range_ target (seq k n) v w = (st, v', w') ->
  exists new,
    attempt_log v' = attempt_log v ++ new
    /\ completions w' = completions w + length new
    /\ length (stdout w') = length (stdout w) + 3 * length new
    /\ cov_runs w' = cov_runs w + length (filter tested new)
    /\ (forall j a, new !! j = Some a ->
          attempt_response a
          = completer (completions w + j) (attempt_prompt a)).
Proof.
  induction n as [|n IH]; intros k v w st v' w' Hrun.
  - simpl in Hrun. injection Hrun as Hs Hv Hw; subst st v' w'. exists [].
    rewrite app_nil_r. simpl. split_and!; auto; try lia.
    intros j a Hj. discriminate.
  - cbn [seq for_range] in Hrun.
    destruct (attempt_effects target k v w)
      as (a & w1 & Hstep & Hresp & Hc & Hs & Hr).
    rewrite Hstep in Hrun.
    destruct (vars_after_log target v a) as [Hlog _].
    assert (Hone : exists new,
      attempt_log (vars_after target v a) = attempt_log v ++ new
      /\ completions w1 = completions w + length new
      /\ length (stdout w1) = length (stdout w) + 3 * length new
      /\ cov_runs w1 = cov_runs w + length (filter tested new)
      /\ (forall j b, new !! j = Some b ->
            attempt_response b
            = completer (completions w + j) (attempt_prompt b))).
    { exists [a]. split_and!; auto; simpl; try lia.
      intros [|j] b Hb; simpl in Hb; [|discriminate].
      injection Hb as <-. rewrite Nat.add_0_r. exact Hresp. }
    destruct (control_of a) eqn:Hctl.
    + apply IH in Hrun as (new & Hl & Hc' & Hs' & Hr' & Hresp').
      exists (a :: new). rewrite Hl, Hlog, <- app_assoc. split_and!.
      * reflexivity.
      * rewrite Hc', Hc. simpl. lia.
      * rewrite Hs', Hs. simpl. lia.
      * rewrite Hr', Hr.
        change (a :: new) with ([a] ++ new).
        rewrite (filter_app tested [a] new), length_app. lia.
      * intros [|j] b Hb; simpl in Hb.
        -- injection Hb as <-. rewrite Nat.add_0_r. exact Hresp.
        -- rewrite (Hresp' _ _ Hb), Hc. f_equal. lia.
    + injection Hrun as Hs0 Hv Hw; subst st v' w'. exact Hone.
    + injection Hrun as Hs0 Hv Hw; subst st v' w'. exact Hone.
Qed.

(** The loop over a list of indices in two parts. *)
Lemma for_range_app target l1 : forall l2 v w,
  for_range_ target (l1 ++ l2) v w
  = match for_range_ target l1 v w with
    | (budget_exhausted, v', w') => for_range_ target l2 v' w'
    | r => r
    end.
Proof.
  induction l1 as [|i l1 IH]; intros l2 v w; simpl; [reflexivity|].
  destruct (attempt_ target i v w) as [[[| |e] v1] w1]; auto.
Qed.

End Effects.

End LoopMore.

Import Accounting LoopMore.

Section SessionsMore.
Variable render : string -> list (string * value) -> string.
Variable completer : nat -> string -> string.
Variable import_under_coverage : nat -> bool -> string -> import_outcome.

Abbreviation session'' := (session render completer import_under_coverage).
Abbreviation main_loop'' :=
  (main_loop render completer import_under_coverage).

(** X10: after an attempt that reports missing lines, the next attempt, if
    the budget allows one, is prompted in the follow-up form, with the
    response of that attempt as test code and exactly the lines it
    reported. *)
Theorem follow_up_prompt_feeds_back target B w i a l ls :
  let r := session'' target B w in
  attempt_log (vars_of r) !! i = Some a ->
  attempt_lines a = Ok (l :: ls) ->
  S i < B ->
  exists a',
    attempt_log (vars_of r) !! S i = Some a'
    /\ attempt_prompt a'
       = construct_prompt_test_code render target (attempt_response a)
           (l :: ls).
Proof.
  intros r Hi Hlines HB.
  assert (Hgo : continuing a)
    by (unfold continuing, control_of; rewrite Hlines; reflexivity).
  destruct (session_continue _ _ _ _ _ _ _ _ _ _ _
              (session_parts render completer import_under_coverage
                 target B w) Hi Hgo) as [Hnext _].
  destruct (Hnext HB) as (a' & Ha' & Hp). exists a'. split; [exact Ha'|].
  rewrite Hp. unfold next_prompt. rewrite Hlines.
  destruct (session_log _ _ _ _ _ _ _ _ _
              (session_parts render completer import_under_coverage
                 target B w)) as (_ & _ & Hall & _).
  rewrite Forall_lookup in Hall. destruct (Hall i a Hi) as [_ [w0 Hm]].
  rewrite Hlines in Hm. symmetry in Hm.
  apply measure_returns in Hm as [Hne _].
  destruct (String.eqb_spec (attempt_response a) "") as [He|_];
    [|reflexivity].
  rewrite He in Hne. exfalso. apply Hne. reflexivity.
Qed.

(** X11: a session calls the completer once per attempt, attempt [j]
    getting the answer to call number [completions w + j]; it prints three
    texts per attempt; and it runs one coverage measurement for each
    attempt whose response has a test function, and none for the others. *)
Theorem session_effects target B w :
  let r := session'' target B w in
  let log := attempt_log (vars_of r) in
  completions (world_of r) = completions w + length log
  /\ length (stdout (world_of r)) = length (stdout w) + 3 * length log
  /\ cov_runs (world_of r) = cov_runs w + length (filter tested log)
  /\ forall j a, log !! j = Some a ->
       attempt_response a
       = completer (completions w + j) (attempt_prompt a).
Proof.
  intros r log.
  destruct (for_range_effects render completer import_under_coverage
              target B 0 initial_vars w _ _ _
              (session_parts render completer import_under_coverage
                 target B w)) as (new & Hl & H).
  simpl in Hl. fold r in Hl. fold log in Hl. rewrite Hl. exact H.
Qed.


(** X13: the outer loop appends one transcript per target, in the order of
    the targets, each of at most [n_coverage_attempts] entries for its own
    target.  An exception that leaves a session ends the outer loop there:
    it is no [SyntaxError], the transcript of that session is not
    appended, the later targets are not processed, and the world is left
    as that session left it. *)
Theorem main_loop_dialogs targets B : forall dialogs w,
  let r := main_loop'' targets B dialogs w in
  exists entries,
    snd (fst r) = dialogs ++ entries
    /\ Forall (fun e => length (snd e) <= B
                        /\ Forall (fun d => fst (fst d) = fst e) (snd e))
              entries
    /\ match fst (fst r) with
       | None => map fst entries = targets
       | Some e =>
         isinstance_SyntaxError e = false
         /\ exists t rest w1 v,
              targets = map fst entries ++ t :: rest
              /\ session'' t B w1 = (aborted e, v, snd r)
       end.
Proof.
  induction targets as [|t ts IH]; intros dialogs w r.
  - exists []. unfold r. simpl. rewrite app_nil_r. split_and!; auto.
  - unfold r. cbn [main_loop].
    destruct (session'' t B w) as [[st v] w'] eqn:E.
    pose proof (session_log _ _ _ _ _ _ _ _ _ E)
      as (Hd & Hlen & _ & _ & _ & _ & _ & Hend).
    assert (Hentry : length (target_dialog v) <= B
                     /\ Forall (fun d => fst (fst d) = t) (target_dialog v)).
    { rewrite Hd, length_map. split; [exact Hlen|].
      apply List.Forall_map, Forall_forall. intros a _. reflexivity. }
    assert (Hgo : forall r',
      r' = main_loop'' ts B (dialogs ++ [(t, target_dialog v)]) w' ->
      exists entries,
        snd (fst r') = dialogs ++ entries
        /\ Forall (fun e => length (snd e) <= B
                            /\ Forall (fun d => fst (fst d) = fst e) (snd e))
                  entries
        /\ match fst (fst r') with
           | None => map fst entries = t :: ts
           | Some e =>
             isinstance_SyntaxError e = false
             /\ exists t' rest w1 v1,
                  t :: ts = map fst entries ++ t' :: rest
                  /\ session'' t' B w1 = (aborted e, v1, snd r')
           end).
    { intros r' ->.
      destruct (IH (dialogs ++ [(t, target_dialog v)]) w')
        as (entries & He & Hall & Hres).
      exists ((t, target_dialog v) :: entries). split_and!.
      - rewrite He, <- app_assoc. reflexivity.
      - constructor; [exact Hentry|exact Hall].
      - destruct (fst (fst (main_loop'' ts B _ w'))) as [e|].
        + destruct Hres as (Hcls & t' & rest & w1 & v1 & Hts & Hs).
          split; [exact Hcls|]. exists t', rest, w1, v1.
          split; [simpl; rewrite Hts; reflexivity|exact Hs].
        + simpl. rewrite Hres. reflexivity. }
    destruct st as [| |e].
    + apply Hgo. reflexivity.
    + apply Hgo. reflexivity.
    + exists []. simpl in Hend. destruct Hend as (a & _ & _ & Hcls).
      simpl. rewrite app_nil_r. split_and!; auto.
      exists t, ts, w, v. split; [reflexivity|exact E].
Qed.

(** X14: a larger budget only adds attempts: the attempts of a session of
    budget [B] are the first attempts of the session of budget [B + d], and
    a session that did not exhaust its budget is the same with the larger
    one. *)
Theorem larger_budget_extends target B d w :
  let r1 := session'' target B w in
  let r2 := session'' target (B + d) w in
  attempt_log (vars_of r1) `prefix_of` attempt_log (vars_of r2)
  /\ (status_of r1 <> budget_exhausted -> r2 = r1).
Proof.
  intros r1 r2. unfold r2, session.
  rewrite seq_app, for_range_app. fold (session'' target B w). fold r1.
  destruct r1 as [[st v] w'] eqn:E. simpl.
  destruct st as [| |e].
  - split; [reflexivity|auto].
  - split; [|intros H; contradiction].
    destruct (for_range render completer import_under_coverage target
                (seq B d) v w') as [[st2 v2] w2] eqn:E2.
    apply for_range_effects in E2 as (new & Hl & _).
    exists new. exact Hl.
  - split; [reflexivity|auto].
Qed.

End SessionsMore.

Lemma follow_up_prompt_feeds_back_witness :
  exists a',
    attempt_log
      (vars_of (session render_placeholders (always partial_response)
                  else_branch_missed some_function_source 2 initial_world))
    !! 1 = Some a'
    /\ attempt_prompt a'
       = construct_prompt_test_code render_placeholders some_function_source
           partial_response ["6"].
Proof.
  pose proof (follow_up_prompt_feeds_back render_placeholders
                (always partial_response) else_branch_missed
                some_function_source 2 initial_world 0
                (mkAttempt 0
                   (construct_prompt render_placeholders some_function_source)
                   partial_response (Ok ["6"]))
                "6" []) as H.
  cbv zeta in H. refine (H _ _ _).
  - vm_compute. reflexivity.
  - reflexivity.
  - lia.
Defined.


(** The outer loop on the two functions of the example, with a completer
    that first answers in prose: both transcripts are recorded. *)
Example main_loop_two_targets :
  let r := main_loop render_placeholders prose_then_full all_lines_run
             [some_function_source; some_function_source] 5 []
             initial_world in
  fst (fst r) = None
  /\ map (fun e => length (snd e)) (snd (fst r)) = [2; 1].
Proof. vm_compute. auto. Qed.
